(** * sql: context-aware interface wrappers around database/sql

    A shallow embedding of [sql.go].  The package has two layers:

    - a static layer: interface declarations, type aliases, wrapper struct
      declarations with one embedded native handle each, and the
      compile-time assertions [_ DB = db{}], ...  (module [Decls]);
    - a dynamic layer: the wrapper methods, each of which calls the
      database/sql method of the embedded handle (module [Wrappers]).

    database/sql itself is an external collaborator.  Its operations are the
    fields of the class [Wrappers.Native]; a concrete recording fake
    ([Fake.native]) instantiates it. *)

From Stdlib Require Import String List Bool Arith Lia.
Import ListNotations.
Open Scope string_scope.

(* ================================================================== *)
(** * Static layer: declarations of sql.go *)
(* ================================================================== *)

Module Decls.

(** Go type expressions, as far as they occur in the signatures of sql.go. *)
Inductive ty : Type :=
| TBuiltin (name : string)          (* string, error, bool, int *)
| TLocal (name : string)            (* a type declared by this package *)
| TImported (pkg name : string)     (* pkg.Name from an imported package *)
| TPtr (elem : ty)                  (* *T *)
| TSlice (elem : ty)                (* []T *)
| TEmptyInterface.                  (* interface{} *)

(** A method signature; [variadic] is the element type of a final [...T]. *)
Record signature : Type := Sig {
  params : list ty;
  variadic : option ty;
  results : list ty
}.

Record method : Type := Method {
  mname : string;
  msig : signature
}.

Definition ty_eq_dec : forall a b : ty, {a = b} + {a <> b}.
Proof. decide equality; apply string_dec. Defined.

Definition signature_eq_dec : forall a b : signature, {a = b} + {a <> b}.
Proof.
  decide equality.
  - apply (list_eq_dec ty_eq_dec).
  - decide equality. apply ty_eq_dec.
  - apply (list_eq_dec ty_eq_dec).
Defined.

Definition method_eq_dec : forall a b : method, {a = b} + {a <> b}.
Proof. decide equality; [apply signature_eq_dec | apply string_dec]. Defined.

(** Imported packages (lines 6-10). *)
Definition pkg_context := "context".
Definition pkg_sql := "database/sql".
Definition pkg_driver := "database/sql/driver".

Definition t_ctx := TImported pkg_context "Context".
Definition t_string := TBuiltin "string".
Definition t_error := TBuiltin "error".

(** ** Type aliases (lines 61-77): [type A = sql.A]. *)
Definition aliases : list (string * ty) :=
  [ ("TxOptions",      TImported pkg_sql "TxOptions");
    ("Row",            TImported pkg_sql "Row");
    ("Rows",           TImported pkg_sql "Rows");
    ("IsolationLevel", TImported pkg_sql "IsolationLevel");
    ("Result",         TImported pkg_sql "Result");
    ("NamedArg",       TImported pkg_sql "NamedArg");
    ("NullBool",       TImported pkg_sql "NullBool");
    ("NullFloat64",    TImported pkg_sql "NullFloat64");
    ("NullInt32",      TImported pkg_sql "NullInt32");
    ("NullInt64",      TImported pkg_sql "NullInt64");
    ("NullString",     TImported pkg_sql "NullString");
    ("NullTime",       TImported pkg_sql "NullTime");
    ("Out",            TImported pkg_sql "Out");
    ("RawBytes",       TImported pkg_sql "RawBytes");
    ("DBStats",        TImported pkg_sql "DBStats") ].

Fixpoint assoc {A : Type} (k : string) (l : list (string * A)) : option A :=
  match l with
  | [] => None
  | (k', v) :: l' => if String.eqb k k' then Some v else assoc k l'
  end.

(** An alias name denotes its target; every other name denotes itself. *)
Fixpoint resolve (t : ty) : ty :=
  match t with
  | TLocal n => match assoc n aliases with Some target => target | None => t end
  | TPtr e => TPtr (resolve e)
  | TSlice e => TSlice (resolve e)
  | _ => t
  end.

(** Go's type identity, on the types of this file: two type expressions are
    identical when they denote the same type once aliases are resolved. *)
Definition identical (a b : ty) : bool :=
  if ty_eq_dec (resolve a) (resolve b) then true else false.

Definition resolve_sig (s : signature) : signature :=
  Sig (map resolve (params s)) (option_map resolve (variadic s))
      (map resolve (results s)).

Definition resolve_method (m : method) : method :=
  Method (mname m) (resolve_sig (msig m)).

(** ** Interface declarations (lines 19-56 and 182-184). *)

Definition sig_query_args (res : list ty) : signature :=
  Sig [t_ctx; t_string] (Some TEmptyInterface) res.
Definition sig_stmt_args (res : list ty) : signature :=
  Sig [t_ctx] (Some TEmptyInterface) res.
Definition sig_error : signature := Sig [] None [t_error].

Definition DB : list method :=
  [ Method "Ping"     (Sig [t_ctx] None [t_error]);
    Method "Prepare"  (Sig [t_ctx; t_string] None [TLocal "Stmt"; t_error]);
    Method "BeginTx"  (Sig [t_ctx; TPtr (TLocal "TxOptions")] None
                           [TLocal "Tx"; t_error]);
    Method "Exec"     (sig_query_args [TLocal "Result"; t_error]);
    Method "Query"    (sig_query_args [TPtr (TLocal "Rows"); t_error]);
    Method "QueryRow" (sig_query_args [TPtr (TLocal "Row")]);
    Method "Driver"   (Sig [] None [TImported pkg_driver "Driver"]);
    Method "StdDB"    (Sig [] None [TPtr (TImported pkg_sql "DB")]) ].

Definition Conn : list method :=
  [ Method "Ping"     (Sig [t_ctx] None [t_error]);
    Method "Prepare"  (Sig [t_ctx; t_string] None [TLocal "Stmt"; t_error]);
    Method "BeginTx"  (Sig [t_ctx; TPtr (TLocal "TxOptions")] None
                           [TLocal "Tx"; t_error]);
    Method "Exec"     (sig_query_args [TLocal "Result"; t_error]);
    Method "Query"    (sig_query_args [TPtr (TLocal "Rows"); t_error]);
    Method "QueryRow" (sig_query_args [TPtr (TLocal "Row")]);
    Method "Close"    sig_error;
    Method "StdConn"  (Sig [] None [TPtr (TImported pkg_sql "Conn")]) ].

Definition Stmt : list method :=
  [ Method "Exec"     (sig_stmt_args [TLocal "Result"; t_error]);
    Method "Query"    (sig_stmt_args [TPtr (TLocal "Rows"); t_error]);
    Method "QueryRow" (sig_stmt_args [TPtr (TLocal "Row")]);
    Method "Close"    sig_error;
    Method "StdStmt"  (Sig [] None [TPtr (TImported pkg_sql "Stmt")]) ].

Definition Tx : list method :=
  [ Method "Commit"   sig_error;
    Method "Rollback" sig_error;
    Method "Prepare"  (Sig [t_ctx; t_string] None [TLocal "Stmt"; t_error]);
    Method "Exec"     (sig_query_args [TLocal "Result"; t_error]);
    Method "Query"    (sig_query_args [TPtr (TLocal "Rows"); t_error]);
    Method "QueryRow" (sig_query_args [TPtr (TLocal "Row")]);
    Method "StdTx"    (Sig [] None [TPtr (TImported pkg_sql "Tx")]) ].

Definition Scanner : list method :=
  [ Method "Scan" (Sig [] (Some TEmptyInterface) [t_error]) ].

Definition interfaces : list (string * list method) :=
  [ ("DB", DB); ("Conn", Conn); ("Stmt", Stmt); ("Tx", Tx);
    ("Scanner", Scanner) ].

(** ** Wrapper struct declarations (lines 80-90): one embedded field each. *)
Definition structs : list (string * list ty) :=
  [ ("db",   [TPtr (TImported pkg_sql "DB")]);
    ("stmt", [TPtr (TImported pkg_sql "Stmt")]);
    ("tx",   [TPtr (TImported pkg_sql "Tx")]) ].

(** ** Method declarations (lines 92-178); all receivers are value
    receivers, so each method is in the method set of [T] and of [*T]. *)
Record method_decl : Type := Decl { recv : string; decl : method }.

Definition method_decls : list method_decl :=
  [ Decl "db" (Method "StdDB"    (Sig [] None [TPtr (TImported pkg_sql "DB")]));
    Decl "db" (Method "Ping"     (Sig [t_ctx] None [t_error]));
    Decl "db" (Method "Prepare"  (Sig [t_ctx; t_string] None
                                      [TLocal "Stmt"; t_error]));
    Decl "db" (Method "Exec"     (sig_query_args [TLocal "Result"; t_error]));
    Decl "db" (Method "Query"    (sig_query_args [TPtr (TLocal "Rows"); t_error]));
    Decl "db" (Method "QueryRow" (sig_query_args [TPtr (TLocal "Row")]));
    Decl "db" (Method "BeginTx"  (Sig [t_ctx; TPtr (TLocal "TxOptions")] None
                                      [TLocal "Tx"; t_error]));
    Decl "stmt" (Method "StdStmt"  (Sig [] None [TPtr (TImported pkg_sql "Stmt")]));
    Decl "stmt" (Method "Exec"     (sig_stmt_args [TLocal "Result"; t_error]));
    Decl "stmt" (Method "Query"    (sig_stmt_args [TPtr (TLocal "Rows"); t_error]));
    Decl "stmt" (Method "QueryRow" (sig_stmt_args [TPtr (TLocal "Row")]));
    Decl "tx" (Method "StdTx"    (Sig [] None [TPtr (TImported pkg_sql "Tx")]));
    Decl "tx" (Method "Prepare"  (Sig [t_ctx; t_string] None
                                      [TLocal "Stmt"; t_error]));
    Decl "tx" (Method "Exec"     (sig_query_args [TLocal "Result"; t_error]));
    Decl "tx" (Method "Query"    (sig_query_args [TPtr (TLocal "Rows"); t_error]));
    Decl "tx" (Method "QueryRow" (sig_query_args [TPtr (TLocal "Row")])) ].

(** ** Compile-time assertions (lines 12-16): [_ I = T{}]. *)
Definition static_assertions : list (string * string) :=
  [ ("DB", "db"); ("Stmt", "stmt"); ("Tx", "tx") ].

(** ** Method sets and interface satisfaction *)

Definition has_name (n : string) (ms : list method) : bool :=
  existsb (fun m => String.eqb n (mname m)) ms.

Definition own_methods (t : string) : list method :=
  map decl (filter (fun d => String.eqb t (recv d)) method_decls).

Section MethodSets.

(** Method sets of the types of imported packages. *)
Variable native : ty -> list method.

(** Methods promoted from the embedded fields of struct [t]. *)
Definition promoted (t : string) : list method :=
  match assoc t structs with
  | Some embedded => flat_map (fun e => native (resolve e)) embedded
  | None => []
  end.

(** The method set of a wrapper struct: the methods declared on it, then
    the promoted ones that no declared method shadows. *)
Definition method_set (t : string) : list method :=
  let own := own_methods t in
  own ++ filter (fun m => negb (has_name (mname m) own)) (promoted t).

(** The method set of an arbitrary type expression: a declared struct or
    a pointer to one has the struct's method set; an alias and an imported
    type have the native one. *)
Definition method_set_of (t : ty) : list method :=
  match t with
  | TLocal n | TPtr (TLocal n) =>
      match assoc n structs with
      | Some _ => method_set n
      | None => native (resolve t)
      end
  | _ => native (resolve t)
  end.

Definition provides (ms : list method) (im : method) : bool :=
  existsb (fun m => if method_eq_dec (resolve_method m) (resolve_method im)
                    then true else false) ms.

Definition implements (ms iface : list method) : bool :=
  forallb (provides ms) iface.

(** The interface methods a method set does not provide. *)
Definition missing (ms iface : list method) : list string :=
  map mname (filter (fun im => negb (provides ms im)) iface).

Definition assertion_holds (a : string * string) : bool :=
  match assoc (fst a) interfaces with
  | Some iface => implements (method_set (snd a)) iface
  | None => false
  end.

End MethodSets.

(** Modelled from the spec: the method sets of the native database/sql
    handle and row types, which this repository imports but does not
    contain.  Section 4 of the spec names the native operations the wrappers
    forward to (ping-with-cancellation, prepare, begin, exec, query,
    query-row, commit, rollback, close, driver, scan); they are listed here
    with the signatures database/sql documents.  All have pointer receivers. *)
Definition sql_plain_args (res : list ty) : signature :=
  Sig [t_string] (Some TEmptyInterface) res.
Definition sql_bare_args (res : list ty) : signature :=
  Sig [] (Some TEmptyInterface) res.
Definition n_Result := TImported pkg_sql "Result".
Definition n_Rows := TPtr (TImported pkg_sql "Rows").
Definition n_Row := TPtr (TImported pkg_sql "Row").
Definition n_Stmt := TPtr (TImported pkg_sql "Stmt").
Definition n_Tx := TPtr (TImported pkg_sql "Tx").

Definition sql_DB_methods : list method :=
  [ Method "Begin"           (Sig [] None [n_Tx; t_error]);
    Method "BeginTx"         (Sig [t_ctx; TPtr (TImported pkg_sql "TxOptions")]
                                  None [n_Tx; t_error]);
    Method "Close"           sig_error;
    Method "Conn"            (Sig [t_ctx] None
                                  [TPtr (TImported pkg_sql "Conn"); t_error]);
    Method "Driver"          (Sig [] None [TImported pkg_driver "Driver"]);
    Method "Exec"            (sql_plain_args [n_Result; t_error]);
    Method "ExecContext"     (sig_query_args [n_Result; t_error]);
    Method "Ping"            sig_error;
    Method "PingContext"     (Sig [t_ctx] None [t_error]);
    Method "Prepare"         (Sig [t_string] None [n_Stmt; t_error]);
    Method "PrepareContext"  (Sig [t_ctx; t_string] None [n_Stmt; t_error]);
    Method "Query"           (sql_plain_args [n_Rows; t_error]);
    Method "QueryContext"    (sig_query_args [n_Rows; t_error]);
    Method "QueryRow"        (sql_plain_args [n_Row]);
    Method "QueryRowContext" (sig_query_args [n_Row]);
    Method "Stats"           (Sig [] None [TImported pkg_sql "DBStats"]) ].

Definition sql_Stmt_methods : list method :=
  [ Method "Close"           sig_error;
    Method "Exec"            (sql_bare_args [n_Result; t_error]);
    Method "ExecContext"     (sig_stmt_args [n_Result; t_error]);
    Method "Query"           (sql_bare_args [n_Rows; t_error]);
    Method "QueryContext"    (sig_stmt_args [n_Rows; t_error]);
    Method "QueryRow"        (sql_bare_args [n_Row]);
    Method "QueryRowContext" (sig_stmt_args [n_Row]) ].

Definition sql_Tx_methods : list method :=
  [ Method "Commit"          sig_error;
    Method "Rollback"        sig_error;
    Method "Exec"            (sql_plain_args [n_Result; t_error]);
    Method "ExecContext"     (sig_query_args [n_Result; t_error]);
    Method "Prepare"         (Sig [t_string] None [n_Stmt; t_error]);
    Method "PrepareContext"  (Sig [t_ctx; t_string] None [n_Stmt; t_error]);
    Method "Query"           (sql_plain_args [n_Rows; t_error]);
    Method "QueryContext"    (sig_query_args [n_Rows; t_error]);
    Method "QueryRow"        (sql_plain_args [n_Row]);
    Method "QueryRowContext" (sig_query_args [n_Row]);
    Method "Stmt"            (Sig [n_Stmt] None [n_Stmt]);
    Method "StmtContext"     (Sig [t_ctx; n_Stmt] None [n_Stmt]) ].

Definition sql_Row_methods : list method :=
  [ Method "Err"  sig_error;
    Method "Scan" (sql_bare_args [t_error]) ].

Definition sql_Rows_methods : list method :=
  [ Method "Close"         sig_error;
    Method "Columns"       (Sig [] None [TSlice t_string; t_error]);
    Method "Err"           sig_error;
    Method "Next"          (Sig [] None [TBuiltin "bool"]);
    Method "NextResultSet" (Sig [] None [TBuiltin "bool"]);
    Method "Scan"          (sql_bare_args [t_error]) ].

Definition std_methods (t : ty) : list method :=
  match t with
  | TPtr (TImported pkg name) =>
      if String.eqb pkg pkg_sql then
        if String.eqb name "DB" then sql_DB_methods
        else if String.eqb name "Stmt" then sql_Stmt_methods
        else if String.eqb name "Tx" then sql_Tx_methods
        else if String.eqb name "Row" then sql_Row_methods
        else if String.eqb name "Rows" then sql_Rows_methods
        else []
      else []
  | _ => []
  end.

(** The value types the package is said to re-export. *)
Definition reexported : list string :=
  [ "TxOptions"; "Row"; "Rows"; "IsolationLevel"; "Result"; "NamedArg";
    "NullBool"; "NullFloat64"; "NullInt32"; "NullInt64"; "NullString";
    "NullTime"; "Out"; "RawBytes"; "DBStats" ].

(** The concrete wrapper types of the package: each declared struct and the
    pointer to it. *)
Definition wrapper_types : list ty :=
  flat_map (fun s => [TLocal (fst s); TPtr (TLocal (fst s))]) structs.

(** [has_suffix suffix s]: the string [s] ends in [suffix]. *)
Definition has_suffix (suffix s : string) : bool :=
  let n := String.length s in
  let k := String.length suffix in
  Nat.leb k n && String.eqb (substring (n - k) k s) suffix.

(** The interface methods that the package documentation (lines 1-3) is
    about: those of the handle interfaces, [Scanner] apart. *)
Definition handle_interfaces : list (string * list method) :=
  filter (fun i => negb (String.eqb (fst i) "Scanner")) interfaces.

(** The single methods that the wrappers take from their embedded handle. *)
Definition m_Driver : method :=
  Method "Driver" (Sig [] None [TImported pkg_driver "Driver"]).
Definition m_Close : method := Method "Close" sig_error.
Definition m_Commit : method := Method "Commit" sig_error.
Definition m_Rollback : method := Method "Rollback" sig_error.
Definition m_StdConn : method :=
  Method "StdConn" (Sig [] None [TPtr (TImported pkg_sql "Conn")]).

End Decls.

(* ================================================================== *)
(** * Dynamic layer: the wrapper methods *)
(* ================================================================== *)

Module Wrappers.

(** ** Effects

    A Go call runs against the state of the outside world (the database,
    the pool, the driver) and either returns a value in a new state or
    panics. *)
Inductive outcome (W A : Type) : Type :=
| Returns (a : A) (w : W)
| Panics.
Arguments Returns {W A} a w.
Arguments Panics {W A}.

Definition M (W A : Type) : Type := W -> outcome W A.

Definition ret {W A : Type} (a : A) : M W A := fun w => Returns a w.

Definition bind {W A B : Type} (m : M W A) (k : A -> M W B) : M W B :=
  fun w => match m w with
           | Returns a w' => k a w'
           | Panics => Panics
           end.

Notation "x <- m ;; k" := (bind m (fun x => k))
  (at level 61, m at next level, right associativity).
Notation "' p <- m ;; k" := (bind m (fun x => match x with p => k end))
  (at level 61, p pattern, m at next level, right associativity).

(** A pointer is nil or the address of an object; an interface value such as
    [error] is nil or holds a dynamic value. *)
Definition ptr (A : Type) : Type := option A.
Definition nil {A : Type} : ptr A := None.

Definition is_nil {A : Type} (p : option A) : bool :=
  match p with None => true | Some _ => false end.

(** ** The native layer: database/sql

    Everything the wrappers call.  Handles are passed as the (possibly nil)
    pointers the wrappers hold. *)
Class Native : Type := {
  World : Type;
  context_Context : Type;               (* context.Context *)
  Value : Type;                         (* interface{} *)
  Err : Type;                           (* non-nil error values *)
  Connector : Type;                     (* driver.Connector *)
  Driver : Type;                        (* driver.Driver *)
  sql_DB : Type;                        (* referent of *sql.DB *)
  sql_Stmt : Type;                      (* referent of *sql.Stmt *)
  sql_Tx : Type;                        (* referent of *sql.Tx *)
  sql_TxOptions : Type;
  sql_Row : Type;
  sql_Rows : Type;
  sql_Result : Type;
  sql_NamedArg : Type;

  sql_Open : string -> string -> M World (ptr sql_DB * option Err);
  sql_OpenDB : Connector -> M World (ptr sql_DB);
  sql_Named : string -> Value -> sql_NamedArg;

  DB_PingContext : ptr sql_DB -> context_Context -> M World (option Err);
  DB_PrepareContext :
    ptr sql_DB -> context_Context -> string -> M World (ptr sql_Stmt * option Err);
  DB_ExecContext :
    ptr sql_DB -> context_Context -> string -> list Value ->
    M World (sql_Result * option Err);
  DB_QueryContext :
    ptr sql_DB -> context_Context -> string -> list Value ->
    M World (ptr sql_Rows * option Err);
  DB_QueryRowContext :
    ptr sql_DB -> context_Context -> string -> list Value -> M World (ptr sql_Row);
  DB_BeginTx :
    ptr sql_DB -> context_Context -> ptr sql_TxOptions ->
    M World (ptr sql_Tx * option Err);
  DB_Driver : ptr sql_DB -> M World Driver;
  DB_Close : ptr sql_DB -> M World (option Err);

  Stmt_ExecContext :
    ptr sql_Stmt -> context_Context -> list Value -> M World (sql_Result * option Err);
  Stmt_QueryContext :
    ptr sql_Stmt -> context_Context -> list Value -> M World (ptr sql_Rows * option Err);
  Stmt_QueryRowContext :
    ptr sql_Stmt -> context_Context -> list Value -> M World (ptr sql_Row);
  Stmt_Close : ptr sql_Stmt -> M World (option Err);

  Tx_Commit : ptr sql_Tx -> M World (option Err);
  Tx_Rollback : ptr sql_Tx -> M World (option Err);
  Tx_PrepareContext :
    ptr sql_Tx -> context_Context -> string -> M World (ptr sql_Stmt * option Err);
  Tx_ExecContext :
    ptr sql_Tx -> context_Context -> string -> list Value ->
    M World (sql_Result * option Err);
  Tx_QueryContext :
    ptr sql_Tx -> context_Context -> string -> list Value ->
    M World (ptr sql_Rows * option Err);
  Tx_QueryRowContext :
    ptr sql_Tx -> context_Context -> string -> list Value -> M World (ptr sql_Row)
}.

Section Package.

Context {N : Native}.

Definition error : Type := option Err.
Definition go (A : Type) : Type := M World A.

(** Type aliases (lines 61-77). *)
Definition TxOptions : Type := sql_TxOptions.
Definition Row : Type := sql_Row.
Definition Rows : Type := sql_Rows.
Definition Result : Type := sql_Result.
Definition NamedArg : Type := sql_NamedArg.

(** Wrapper structs (lines 80-90); the embedded field is named after its
    type. *)
Record db : Type := mk_db { db_DB : ptr sql_DB }.
Record stmt : Type := mk_stmt { stmt_Stmt : ptr sql_Stmt }.
Record tx : Type := mk_tx { tx_Tx : ptr sql_Tx }.

(** Values of the interface types [DB], [Stmt], [Tx] as this package
    produces them: nil, or a wrapper struct. *)
Definition DB : Type := option db.
Definition Stmt : Type := option stmt.
Definition Tx : Type := option tx.

(** Zero values [db{}], [stmt{}], [tx{}]. *)
Definition db_zero : db := mk_db nil.
Definition stmt_zero : stmt := mk_stmt nil.
Definition tx_zero : tx := mk_tx nil.

(** Methods promoted from the embedded handles: [d.ExecContext] is
    [d.DB.ExecContext], and so on. *)
Definition db_ExecContext (d : db) := DB_ExecContext (db_DB d).
Definition db_QueryContext (d : db) := DB_QueryContext (db_DB d).
Definition db_QueryRowContext (d : db) := DB_QueryRowContext (db_DB d).
Definition db_Driver (d : db) : go Driver := DB_Driver (db_DB d).
Definition db_Close (d : db) : go error := DB_Close (db_DB d).
Definition stmt_Close (d : stmt) : go error := Stmt_Close (stmt_Stmt d).
Definition tx_Commit (t : tx) : go error := Tx_Commit (tx_Tx t).
Definition tx_Rollback (t : tx) : go error := Tx_Rollback (tx_Tx t).
Definition tx_PrepareContext (t : tx) := Tx_PrepareContext (tx_Tx t).
Definition tx_ExecContext (t : tx) := Tx_ExecContext (tx_Tx t).
Definition tx_QueryContext (t : tx) := Tx_QueryContext (tx_Tx t).
Definition tx_QueryRowContext (t : tx) := Tx_QueryRowContext (tx_Tx t).

(** *** db *)

Definition db_StdDB (d : db) : ptr sql_DB := db_DB d.

Definition Open (driverName dataSourceName : string) : go (DB * error) :=
  '(result, err) <- sql_Open driverName dataSourceName ;;
  if negb (is_nil err) then ret (None, err)
  else ret (Some (mk_db result), None).

Definition OpenDB (c : Connector) : go (DB * error) :=
  h <- sql_OpenDB c ;;
  ret (Some (mk_db h), None).

Definition db_Ping (d : db) (ctx : context_Context) : go error :=
  DB_PingContext (db_DB d) ctx.

Definition db_Prepare (d : db) (ctx : context_Context) (query : string)
  : go (Stmt * error) :=
  '(result, err) <- DB_PrepareContext (db_DB d) ctx query ;;
  if negb (is_nil err) then ret (None, err)
  else ret (Some (mk_stmt result), None).

Definition db_Exec (d : db) (ctx : context_Context) (query : string)
           (args : list Value) : go (Result * error) :=
  db_ExecContext d ctx query args.

Definition db_Query (d : db) (ctx : context_Context) (query : string)
           (args : list Value) : go (ptr Rows * error) :=
  db_QueryContext d ctx query args.

Definition db_QueryRow (d : db) (ctx : context_Context) (query : string)
           (args : list Value) : go (ptr Row) :=
  db_QueryRowContext d ctx query args.

Definition db_BeginTx (d : db) (ctx : context_Context) (opts : ptr TxOptions)
  : go (Tx * error) :=
  '(result, err) <- DB_BeginTx (db_DB d) ctx opts ;;
  if negb (is_nil err) then ret (None, err)
  else ret (Some (mk_tx result), None).

(** *** stmt *)

Definition stmt_StdStmt (d : stmt) : ptr sql_Stmt := stmt_Stmt d.

Definition stmt_Exec (d : stmt) (ctx : context_Context) (args : list Value)
  : go (Result * error) :=
  Stmt_ExecContext (stmt_Stmt d) ctx args.

Definition stmt_Query (d : stmt) (ctx : context_Context) (args : list Value)
  : go (ptr Rows * error) :=
  Stmt_QueryContext (stmt_Stmt d) ctx args.

Definition stmt_QueryRow (d : stmt) (ctx : context_Context) (args : list Value)
  : go (ptr Row) :=
  Stmt_QueryRowContext (stmt_Stmt d) ctx args.

(** *** tx *)

Definition tx_StdTx (t : tx) : ptr sql_Tx := tx_Tx t.

Definition tx_Prepare (t : tx) (ctx : context_Context) (query : string)
  : go (Stmt * error) :=
  '(result, err) <- tx_PrepareContext t ctx query ;;
  if negb (is_nil err) then ret (None, err)
  else ret (Some (mk_stmt result), None).

Definition tx_Exec (t : tx) (ctx : context_Context) (query : string)
           (args : list Value) : go (Result * error) :=
  tx_ExecContext t ctx query args.

Definition tx_Query (t : tx) (ctx : context_Context) (query : string)
           (args : list Value) : go (ptr Rows * error) :=
  tx_QueryContext t ctx query args.

Definition tx_QueryRow (t : tx) (ctx : context_Context) (query : string)
           (args : list Value) : go (ptr Row) :=
  tx_QueryRowContext t ctx query args.

(** *** Named (lines 186-189) *)
Definition Named (name : string) (value : Value) : NamedArg :=
  sql_Named name value.

End Package.

(** ** Contracts of the native layer that some properties rely on *)

(** The states of a native transaction. *)
Inductive tx_status : Type := TxOpen | TxCommitted | TxRolledBack.

(** The two terminal operations of a transaction, and a caller that issues
a sequence of them on one wrapper. *)
Inductive tx_end : Type := Commit | Rollback.

Definition terminal_of (op : tx_end) : tx_status :=
  match op with Commit => TxCommitted | Rollback => TxRolledBack end.

Section Contracts.

Context {N : Native}.

Definition tx_finish (t : tx) (op : tx_end) : go error :=
  match op with
  | Commit => tx_Commit t
  | Rollback => tx_Rollback t
  end.

Fixpoint tx_finish_all (t : tx) (ops : list tx_end) : go (list error) :=
  match ops with
  | [] => ret []
  | op :: rest =>
      e <- tx_finish t op ;;
      es <- tx_finish_all t rest ;;
      ret (e :: es)
  end.

(** database/sql's transaction contract: a successful Commit or Rollback
    of an open transaction finishes it, and every Commit or Rollback of a
    finished transaction returns [ErrTxDone] and leaves it as it is. *)
Record tx_contract (ErrTxDone : Err) (tx_state : sql_Tx -> World -> tx_status)
  : Prop := {
  commit_open : forall h w w',
    tx_state h w = TxOpen ->
    Tx_Commit (Some h) w = Returns None w' ->
    tx_state h w' = TxCommitted;
  rollback_open : forall h w w',
    tx_state h w = TxOpen ->
    Tx_Rollback (Some h) w = Returns None w' ->
    tx_state h w' = TxRolledBack;
  commit_done : forall h w,
    tx_state h w <> TxOpen ->
    exists w', Tx_Commit (Some h) w = Returns (Some ErrTxDone) w' /\
               tx_state h w' = tx_state h w;
  rollback_done : forall h w,
    tx_state h w <> TxOpen ->
    exists w', Tx_Rollback (Some h) w = Returns (Some ErrTxDone) w' /\
               tx_state h w' = tx_state h w
}.

(** database/sql's nil-receiver behaviour.  The methods of [*sql.DB] and
    [*sql.Stmt], and [Commit] and [Rollback] of [*sql.Tx], dereference their
    receiver before anything else: called on a nil handle they panic.
    Nothing is asked of [PrepareContext], [ExecContext], [QueryContext] and
    [QueryRowContext] of [*sql.Tx]: they look at the context first and
    return its error, without touching the receiver, when it is done. *)
Record nil_receiver_panics : Prop := {
  nil_DB_PingContext : forall ctx w, DB_PingContext nil ctx w = Panics;
  nil_DB_PrepareContext : forall ctx q w,
    DB_PrepareContext nil ctx q w = Panics;
  nil_DB_ExecContext : forall ctx q args w,
    DB_ExecContext nil ctx q args w = Panics;
  nil_DB_QueryContext : forall ctx q args w,
    DB_QueryContext nil ctx q args w = Panics;
  nil_DB_QueryRowContext : forall ctx q args w,
    DB_QueryRowContext nil ctx q args w = Panics;
  nil_DB_BeginTx : forall ctx opts w, DB_BeginTx nil ctx opts w = Panics;
  nil_DB_Driver : forall w, DB_Driver nil w = Panics;
  nil_DB_Close : forall w, DB_Close nil w = Panics;
  nil_Stmt_ExecContext : forall ctx args w,
    Stmt_ExecContext nil ctx args w = Panics;
  nil_Stmt_QueryContext : forall ctx args w,
    Stmt_QueryContext nil ctx args w = Panics;
  nil_Stmt_QueryRowContext : forall ctx args w,
    Stmt_QueryRowContext nil ctx args w = Panics;
  nil_Stmt_Close : forall w, Stmt_Close nil w = Panics;
  nil_Tx_Commit : forall w, Tx_Commit nil w = Panics;
  nil_Tx_Rollback : forall w, Tx_Rollback nil w = Panics
}.

(** A call is safe in a state when it does not panic there. *)
Definition safe {A : Type} (m : go A) (w : World) : Prop := m w <> Panics.

(** ** Vocabulary for the forwarding properties *)

(** The body that [Open], [db.Prepare], [db.BeginTx] and [tx.Prepare] have
    in common: call, test [err != nil], wrap the result. *)
Definition call_and_wrap {H Wr : Type} (mk : ptr H -> Wr)
           (native : go (ptr H * error)) : go (option Wr * error) :=
  '(result, err) <- native ;;
  if negb (is_nil err) then ret (None, err)
  else ret (Some (mk result), None).

(** [wrapper] behaves exactly as [native]: same result, same error, same
    final state, same panic. *)
Definition forwards {A : Type} (wrapper native : go A) : Prop :=
  forall w, wrapper w = native w.

(** The same for the operations that hand out a new wrapper: the native
    handle [R] comes back inside a wrapper, a native error [E] comes back
    as it is with a nil wrapper. *)
Definition forwards_handle {H Wr : Type} (std : Wr -> ptr H)
           (wrapper : go (option Wr * error)) (native : go (ptr H * error))
  : Prop :=
  forall w,
    (native w = Panics -> wrapper w = Panics) /\
    (forall R w', native w = Returns (R, None) w' ->
       exists x, wrapper w = Returns (Some x, None) w' /\ std x = R) /\
    (forall R E w', native w = Returns (R, Some E) w' ->
       wrapper w = Returns (None, Some E) w').

(** A wrapper is returned with a nil error exactly when the native call
    succeeded; the wrapper call returns exactly when the native one does. *)
Definition wrapper_iff_success {H Wr : Type} (std : Wr -> ptr H)
           (wrapper : go (option Wr * error)) (native : go (ptr H * error))
  : Prop :=
  forall w,
    (forall r e w', native w = Returns (r, e) w' ->
       exists x, wrapper w = Returns (x, e) w' /\
                 (x <> None <-> e = None) /\
                 (e = None -> exists v, x = Some v /\ std v = r) /\
                 (e <> None -> x = None)) /\
    (forall x e w', wrapper w = Returns (x, e) w' ->
       exists r, native w = Returns (r, e) w').

(** Every operation of a wrapper panics, whatever the arguments and the
    state. *)
Definition db_panics (d : db) : Prop :=
  (forall ctx w, db_Ping d ctx w = Panics) /\
  (forall ctx q w, db_Prepare d ctx q w = Panics) /\
  (forall ctx opts w, db_BeginTx d ctx opts w = Panics) /\
  (forall ctx q args w, db_Exec d ctx q args w = Panics) /\
  (forall ctx q args w, db_Query d ctx q args w = Panics) /\
  (forall ctx q args w, db_QueryRow d ctx q args w = Panics) /\
  (forall w, db_Driver d w = Panics) /\
  (forall w, db_Close d w = Panics).

Definition stmt_panics (d : stmt) : Prop :=
  (forall ctx args w, stmt_Exec d ctx args w = Panics) /\
  (forall ctx args w, stmt_Query d ctx args w = Panics) /\
  (forall ctx args w, stmt_QueryRow d ctx args w = Panics) /\
  (forall w, stmt_Close d w = Panics).

(** Commit and Rollback of a transaction wrapper panic, whatever the
    state. *)
Definition tx_finish_panics (t : tx) : Prop :=
  (forall w, tx_Commit t w = Panics) /\
  (forall w, tx_Rollback t w = Panics).

(** The operations of a wrapper are safe: none of them panics, whatever the
    arguments and the state. *)
Definition db_safe (d : db) : Prop :=
  (forall ctx w, safe (db_Ping d ctx) w) /\
  (forall ctx q w, safe (db_Prepare d ctx q) w) /\
  (forall ctx opts w, safe (db_BeginTx d ctx opts) w) /\
  (forall ctx q args w, safe (db_Exec d ctx q args) w) /\
  (forall ctx q args w, safe (db_Query d ctx q args) w) /\
  (forall ctx q args w, safe (db_QueryRow d ctx q args) w) /\
  (forall w, safe (db_Driver d) w) /\
  (forall w, safe (db_Close d) w).

Definition stmt_safe (d : stmt) : Prop :=
  (forall ctx args w, safe (stmt_Exec d ctx args) w) /\
  (forall ctx args w, safe (stmt_Query d ctx args) w) /\
  (forall ctx args w, safe (stmt_QueryRow d ctx args) w) /\
  (forall w, safe (stmt_Close d) w).

Definition tx_safe (t : tx) : Prop :=
  (forall w, safe (tx_Commit t) w) /\
  (forall w, safe (tx_Rollback t) w) /\
  (forall ctx q w, safe (tx_Prepare t ctx q) w) /\
  (forall ctx q args w, safe (tx_Exec t ctx q args) w) /\
  (forall ctx q args w, safe (tx_Query t ctx q args) w) /\
  (forall ctx q args w, safe (tx_QueryRow t ctx q args) w).

End Contracts.

End Wrappers.

(* ================================================================== *)
(** * A fake native layer that records its calls *)
(* ================================================================== *)

Module Fake.
Import Wrappers.

(** One recorded native call: method, receiver, query text, arguments. *)
Record call : Type := Call {
  c_method : string;
  c_recv : string;
  c_query : string;
  c_args : list nat
}.

Record world : Type := World_ {
  log : list call;                       (* most recent call first *)
  finished : list (nat * tx_status);     (* transactions no longer open *)
  next_tx : nat
}.

Definition empty : world := World_ [] [] 0.

Definition ErrTxDone : string :=
  "sql: transaction has already been committed or rolled back".
Definition ErrCanceled : string := "context canceled".
Definition ErrUnknownDriver : string := "sql: unknown driver".
Definition ErrSyntax : string := "syntax error".

Fixpoint lookup_tx (id : nat) (l : list (nat * tx_status)) : option tx_status :=
  match l with
  | [] => None
  | (k, s) :: l' => if Nat.eqb id k then Some s else lookup_tx id l'
  end.

Definition tx_state (id : nat) (w : world) : tx_status :=
  match lookup_tx id (finished w) with
  | Some s => s
  | None => TxOpen
  end.

Definition record (c : call) : M world unit :=
  fun w => Returns tt (World_ (c :: log w) (finished w) (next_tx w)).

(** A method that touches its receiver first: it panics on a nil one. *)
Definition on {H A : Type} (h : ptr H) (k : H -> M world A) : M world A :=
  match h with
  | None => fun _ => Panics
  | Some x => k x
  end.

(** A canceled context (true) makes a call fail with [ErrCanceled]. *)
Definition guard (ctx : bool) : option string :=
  if ctx then Some ErrCanceled else None.

Definition open (drv dsn : string) : M world (ptr string * option string) :=
  _ <- record (Call "Open" drv dsn []) ;;
  if String.eqb drv "fake" then ret (Some dsn, None)
  else ret (None, Some ErrUnknownDriver).

Definition open_db (c : string) : M world (ptr string) :=
  _ <- record (Call "OpenDB" c "" []) ;;
  ret (Some c).

Definition ping (h : ptr string) (ctx : bool) : M world (option string) :=
  on h (fun d => _ <- record (Call "DB.PingContext" d "" []) ;; ret (guard ctx)).

Definition prepare (who : string) (d : string) (ctx : bool) (q : string)
  : M world (ptr string * option string) :=
  _ <- record (Call who d q []) ;;
  match guard ctx with
  | Some e => ret (None, Some e)
  | None => if String.eqb q "" then ret (None, Some ErrSyntax)
            else ret (Some q, None)
  end.

Definition exec (who : string) (d : string) (ctx : bool) (q : string)
           (args : list nat) : M world (nat * option string) :=
  _ <- record (Call who d q args) ;;
  ret (List.length args, guard ctx).

Definition query (who : string) (d : string) (ctx : bool) (q : string)
           (args : list nat) : M world (ptr (list (list nat)) * option string) :=
  _ <- record (Call who d q args) ;;
  match guard ctx with
  | Some e => ret (None, Some e)
  | None => if String.eqb q "SELECT 1" then ret (Some [[1]], None)
            else ret (Some [args], None)
  end.

Definition query_row (who : string) (d : string) (ctx : bool) (q : string)
           (args : list nat) : M world (ptr (list nat)) :=
  _ <- record (Call who d q args) ;;
  ret (Some args).

Definition begin_tx (h : ptr string) (ctx : bool) (opts : ptr bool)
  : M world (ptr nat * option string) :=
  on h (fun d =>
    _ <- record (Call "DB.BeginTx" d "" []) ;;
    match guard ctx with
    | Some e => ret (None, Some e)
    | None => fun w =>
        Returns (Some (next_tx w), None)
                (World_ (log w) (finished w) (S (next_tx w)))
    end).

Definition tx_name (id : nat) : string :=
  String.append "tx" (String (Ascii.ascii_of_nat (48 + id)) "").

Definition finish (op : tx_end) (h : ptr nat) : M world (option string) :=
  on h (fun id =>
    _ <- record (Call (match op with Commit => "Tx.Commit"
                                   | Rollback => "Tx.Rollback" end)
                      (tx_name id) "" []) ;;
    fun w =>
      match lookup_tx id (finished w) with
      | Some _ => Returns (Some ErrTxDone) w
      | None => Returns None
                  (World_ (log w) ((id, terminal_of op) :: finished w)
                          (next_tx w))
      end).

(** Inside a transaction, every call on a finished transaction fails with
    the result [failed]. *)
Definition in_tx {A : Type} (id : nat) (failed : A) (k : M world A)
  : M world A :=
  fun w => match lookup_tx id (finished w) with
           | Some _ => Returns failed w
           | None => k w
           end.

#[export] Instance native : Native := {|
  World := world;
  context_Context := bool;
  Value := nat;
  Err := string;
  Connector := string;
  Driver := string;
  sql_DB := string;
  sql_Stmt := string;
  sql_Tx := nat;
  sql_TxOptions := bool;
  sql_Row := list nat;
  sql_Rows := list (list nat);
  sql_Result := nat;
  sql_NamedArg := string * nat;
  sql_Open := open;
  sql_OpenDB := open_db;
  sql_Named := fun name value => (name, value);
  DB_PingContext := ping;
  DB_PrepareContext := fun h ctx q =>
    on h (fun d => prepare "DB.PrepareContext" d ctx q);
  DB_ExecContext := fun h ctx q args =>
    on h (fun d => exec "DB.ExecContext" d ctx q args);
  DB_QueryContext := fun h ctx q args =>
    on h (fun d => query "DB.QueryContext" d ctx q args);
  DB_QueryRowContext := fun h ctx q args =>
    on h (fun d => query_row "DB.QueryRowContext" d ctx q args);
  DB_BeginTx := begin_tx;
  DB_Driver := fun h => on h (fun _ => ret "fake");
  DB_Close := fun h =>
    on h (fun d => _ <- record (Call "DB.Close" d "" []) ;; ret None);
  Stmt_ExecContext := fun h ctx args =>
    on h (fun s => exec "Stmt.ExecContext" s ctx s args);
  Stmt_QueryContext := fun h ctx args =>
    on h (fun s => query "Stmt.QueryContext" s ctx s args);
  Stmt_QueryRowContext := fun h ctx args =>
    on h (fun s => query_row "Stmt.QueryRowContext" s ctx s args);
  Stmt_Close := fun h =>
    on h (fun s => _ <- record (Call "Stmt.Close" s "" []) ;; ret None);
  Tx_Commit := finish Commit;
  Tx_Rollback := finish Rollback;
  Tx_PrepareContext := fun h ctx q =>
    on h (fun id => in_tx id (None, Some ErrTxDone)
                     (prepare "Tx.PrepareContext" (tx_name id) ctx q));
  Tx_ExecContext := fun h ctx q args =>
    on h (fun id => in_tx id (0, Some ErrTxDone)
                     (exec "Tx.ExecContext" (tx_name id) ctx q args));
  Tx_QueryContext := fun h ctx q args =>
    on h (fun id => in_tx id (None, Some ErrTxDone)
                     (query "Tx.QueryContext" (tx_name id) ctx q args));
  Tx_QueryRowContext := fun h ctx q args =>
    on h (fun id => query_row "Tx.QueryRowContext" (tx_name id) ctx q args)
|}.

(** Sample wrappers over the fake: an opened database and the first
    transaction. *)
Definition dsn : db := @mk_db native (Some "dsn").
Definition tx0 : tx := @mk_tx native (Some 0).

(** A caller: open the fake, prepare a statement, run it. *)
Definition open_prepare_query (q : string) : go (ptr Rows * error) :=
  '(d, err) <- Open "fake" "dsn" ;;
  match d with
  | None => ret (None, err)
  | Some d =>
      '(s, err) <- db_Prepare d false q ;;
      match s with
      | None => ret (None, err)
      | Some s => stmt_Query s false []
      end
  end.

(** A second fake, closer to database/sql on a nil transaction: the [Tx]
    methods that take a context test it before they touch the receiver, so
    with a canceled context they return [ErrCanceled] even on nil.  Every
    other operation is that of [native]. *)
Definition ctx_first {H A : Type} (ctx : bool) (canceled : A) (h : ptr H)
           (k : H -> M world A) : M world A :=
  if ctx then ret canceled else on h k.

Definition ctx_first_native : Native := {|
  World := world;
  context_Context := bool;
  Value := nat;
  Err := string;
  Connector := string;
  Driver := string;
  sql_DB := string;
  sql_Stmt := string;
  sql_Tx := nat;
  sql_TxOptions := bool;
  sql_Row := list nat;
  sql_Rows := list (list nat);
  sql_Result := nat;
  sql_NamedArg := string * nat;
  sql_Open := @sql_Open native;
  sql_OpenDB := @sql_OpenDB native;
  sql_Named := @sql_Named native;
  DB_PingContext := @DB_PingContext native;
  DB_PrepareContext := @DB_PrepareContext native;
  DB_ExecContext := @DB_ExecContext native;
  DB_QueryContext := @DB_QueryContext native;
  DB_QueryRowContext := @DB_QueryRowContext native;
  DB_BeginTx := @DB_BeginTx native;
  DB_Driver := @DB_Driver native;
  DB_Close := @DB_Close native;
  Stmt_ExecContext := @Stmt_ExecContext native;
  Stmt_QueryContext := @Stmt_QueryContext native;
  Stmt_QueryRowContext := @Stmt_QueryRowContext native;
  Stmt_Close := @Stmt_Close native;
  Tx_Commit := @Tx_Commit native;
  Tx_Rollback := @Tx_Rollback native;
  Tx_PrepareContext := fun h ctx q =>
    ctx_first ctx (None, Some ErrCanceled) h
      (fun id => in_tx id (None, Some ErrTxDone)
                   (prepare "Tx.PrepareContext" (tx_name id) ctx q));
  Tx_ExecContext := fun h ctx q args =>
    ctx_first ctx (0, Some ErrCanceled) h
      (fun id => in_tx id (0, Some ErrTxDone)
                   (exec "Tx.ExecContext" (tx_name id) ctx q args));
  Tx_QueryContext := fun h ctx q args =>
    ctx_first ctx (None, Some ErrCanceled) h
      (fun id => in_tx id (None, Some ErrTxDone)
                   (query "Tx.QueryContext" (tx_name id) ctx q args));
  Tx_QueryRowContext := fun h ctx q args =>
    ctx_first ctx (Some []) h
      (fun id => query_row "Tx.QueryRowContext" (tx_name id) ctx q args)
|}.

End Fake.

(* ================================================================== *)
(** * Facts about the declarations *)
(* ================================================================== *)

Module StaticFacts.
Import Decls.

(** ** Interface satisfaction *)

Lemma provides_in (ms : list method) (m : method) :
  In m ms -> provides ms m = true.
Proof.
  intros Hin. unfold provides. apply existsb_exists.
  exists m. split; [exact Hin|].
  destruct (method_eq_dec (resolve_method m) (resolve_method m)); congruence.
Qed.

Lemma provides_app (ms ms' : list method) (im : method) :
  provides (ms ++ ms') im = provides ms im || provides ms' im.
Proof. unfold provides. apply existsb_app. Qed.

Lemma provides_has_name (ms : list method) (im : method) :
  provides ms im = true -> has_name (mname im) ms = true.
Proof.
  unfold provides, has_name. rewrite !existsb_exists.
  intros [m [Hin Heq]]. exists m. split; [exact Hin|].
  destruct (method_eq_dec (resolve_method m) (resolve_method im)) as [E|];
    [|discriminate].
  apply (f_equal mname) in E. simpl in E. rewrite E. apply String.eqb_refl.
Qed.

Lemma has_name_in (n : string) (ms : list method) :
  has_name n ms = true <-> exists m, In m ms /\ mname m = n.
Proof.
  unfold has_name. rewrite existsb_exists. split.
  - intros [m [Hin H]]. apply String.eqb_eq in H. eauto.
  - intros [m [Hin H]]. exists m. split; [exact Hin|].
    subst n. apply String.eqb_refl.
Qed.

(** A promoted method that no declared method shadows is in the method set. *)
Lemma promoted_in_method_set (native : ty -> list method) (t : string)
      (m : method) :
  In m (promoted native t) ->
  has_name (mname m) (own_methods t) = false ->
  In m (method_set native t).
Proof.
  intros Hin Hfree. unfold method_set. apply in_or_app. right.
  apply filter_In. split; [exact Hin|]. now rewrite Hfree.
Qed.

Lemma provides_promoted (native : ty -> list method) (t : string)
      (m : method) :
  In m (promoted native t) ->
  has_name (mname m) (own_methods t) = false ->
  provides (method_set native t) m = true.
Proof.
  intros Hin Hfree. apply provides_in.
  now apply promoted_in_method_set.
Qed.

(** A name that is neither declared on a struct nor promoted into it is not
    in its method set. *)
Lemma method_set_lacks (native : ty -> list method) (t n : string) :
  has_name n (own_methods t) = false ->
  (forall m, In m (promoted native t) -> mname m <> n) ->
  has_name n (method_set native t) = false.
Proof.
  intros Hown Hprom.
  destruct (has_name n (method_set native t)) eqn:E; [|reflexivity].
  apply has_name_in in E. destruct E as [m [Hin Hn]].
  unfold method_set in Hin. apply in_app_or in Hin. destruct Hin as [Hin|Hin].
  - assert (has_name n (own_methods t) = true) as H
        by (apply has_name_in; eauto).
    congruence.
  - apply filter_In in Hin. destruct Hin as [Hin _].
    exfalso. exact (Hprom m Hin Hn).
Qed.

Lemma implements_needs_name (ms iface : list method) (im : method) :
  In im iface ->
  has_name (mname im) ms = false ->
  implements ms iface = false /\ In (mname im) (missing ms iface).
Proof.
  intros Hin Hname.
  assert (provides ms im = false) as Hp.
  { destruct (provides ms im) eqn:E; [|reflexivity].
    apply provides_has_name in E. congruence. }
  split.
  - destruct (implements ms iface) eqn:E; [|reflexivity].
    unfold implements in E. rewrite forallb_forall in E.
    specialize (E im Hin). congruence.
  - unfold missing. apply in_map. apply filter_In. split; [exact Hin|].
    now rewrite Hp.
Qed.

(** C5: every wrapper type satisfies its declared interface, as the
    compile-time assertions [_ DB = db{}], [_ Stmt = stmt{}], [_ Tx = tx{}]
    state.  Whatever the method sets of the imported types are, as long as
    [*sql.DB] has [Driver() driver.Driver], [*sql.Stmt] has [Close() error]
    and [*sql.Tx] has [Commit() error] and [Rollback() error], each wrapper
    provides every method of its interface (nothing is missing), and the
    check is a function of the declarations alone. *)
Theorem wrappers_satisfy_interfaces (native : ty -> list method) :
  In (Method "Driver" (Sig [] None [TImported pkg_driver "Driver"]))
     (native (TPtr (TImported pkg_sql "DB"))) ->
  In (Method "Close" sig_error) (native (TPtr (TImported pkg_sql "Stmt"))) ->
  In (Method "Commit" sig_error) (native (TPtr (TImported pkg_sql "Tx"))) ->
  In (Method "Rollback" sig_error) (native (TPtr (TImported pkg_sql "Tx"))) ->
  forallb (assertion_holds native) static_assertions = true /\
  (implements (method_set native "db") DB = true /\
   missing (method_set native "db") DB = []) /\
  (implements (method_set native "stmt") Stmt = true /\
   missing (method_set native "stmt") Stmt = []) /\
  (implements (method_set native "tx") Tx = true /\
   missing (method_set native "tx") Tx = []).
Proof.
  intros HDriver HClose HCommit HRollback.
  assert (provides (method_set native "db")
            (Method "Driver" (Sig [] None [TImported pkg_driver "Driver"]))
          = true) as PDriver.
  { apply provides_promoted; [|reflexivity].
    unfold promoted; simpl. rewrite app_nil_r. exact HDriver. }
  assert (provides (method_set native "stmt") (Method "Close" sig_error)
          = true) as PClose.
  { apply provides_promoted; [|reflexivity].
    unfold promoted; simpl. rewrite app_nil_r. exact HClose. }
  assert (provides (method_set native "tx") (Method "Commit" sig_error)
          = true) as PCommit.
  { apply provides_promoted; [|reflexivity].
    unfold promoted; simpl. rewrite app_nil_r. exact HCommit. }
  assert (provides (method_set native "tx") (Method "Rollback" sig_error)
          = true) as PRollback.
  { apply provides_promoted; [|reflexivity].
    unfold promoted; simpl. rewrite app_nil_r. exact HRollback. }
  assert (forall t im, provides (own_methods t) im = true ->
                       provides (method_set native t) im = true) as Pown.
  { intros t im H. unfold method_set. rewrite provides_app, H. reflexivity. }
  assert (implements (method_set native "db") DB = true /\
          missing (method_set native "db") DB = []) as Hdb.
  { unfold implements, missing, DB. cbn [forallb filter map].
    rewrite PDriver.
    rewrite !(Pown "db") by (vm_compute; reflexivity). split; reflexivity. }
  assert (implements (method_set native "stmt") Stmt = true /\
          missing (method_set native "stmt") Stmt = []) as Hstmt.
  { unfold implements, missing, Stmt. cbn [forallb filter map].
    rewrite PClose.
    rewrite !(Pown "stmt") by (vm_compute; reflexivity). split; reflexivity. }
  assert (implements (method_set native "tx") Tx = true /\
          missing (method_set native "tx") Tx = []) as Htx.
  { unfold implements, missing, Tx. cbn [forallb filter map].
    rewrite PCommit, PRollback.
    rewrite !(Pown "tx") by (vm_compute; reflexivity). split; reflexivity. }
  split; [|tauto].
  unfold static_assertions. cbn [forallb].
  unfold assertion_holds.
  cbn [fst snd interfaces assoc String.eqb Ascii.eqb Bool.eqb].
  destruct Hdb as [-> _], Hstmt as [-> _], Htx as [-> _]. reflexivity.
Qed.

Ltac in_list := repeat (first [left; reflexivity | right]).

Lemma wrappers_satisfy_interfaces_witness :
  In (Method "Driver" (Sig [] None [TImported pkg_driver "Driver"]))
     (std_methods (TPtr (TImported pkg_sql "DB"))) /\
  forallb (assertion_holds std_methods) static_assertions = true /\
  (implements (method_set std_methods "db") DB = true /\
   missing (method_set std_methods "db") DB = []) /\
  (implements (method_set std_methods "stmt") Stmt = true /\
   missing (method_set std_methods "stmt") Stmt = []) /\
  (implements (method_set std_methods "tx") Tx = true /\
   missing (method_set std_methods "tx") Tx = []).
Proof.
  split; [simpl; in_list|].
  apply (wrappers_satisfy_interfaces std_methods); simpl; in_list.
Defined.

(** Shadowing is what makes [db] satisfy [DB]: the promoted [Ping() error]
    of [*sql.DB] is hidden by the declared [Ping(ctx) error]. *)
Example db_Ping_shadows_native :
  filter (fun m => String.eqb "Ping" (mname m)) (method_set std_methods "db")
  = [Method "Ping" (Sig [t_ctx] None [t_error])].
Proof. reflexivity. Qed.

(** ** The Conn interface *)

(** C2, as stated, fails: with the method sets of database/sql, no wrapper
    type of the package (a declared struct or a pointer to one) satisfies
    [Conn]. *)
Lemma no_wrapper_type_implements_Conn :
  ~ exists t, In t wrapper_types /\
              implements (method_set_of std_methods t) Conn = true.
Proof.
  intros [t [Hin H]]. simpl in Hin.
  repeat (destruct Hin as [<-|Hin]; [vm_compute in H; discriminate|]).
  exact Hin.
Qed.

(** What each struct lacks for [Conn]. *)
Example Conn_missing_by_wrapper :
  missing (method_set std_methods "db") Conn = ["StdConn"] /\
  missing (method_set std_methods "stmt") Conn
    = ["Ping"; "Prepare"; "BeginTx"; "Exec"; "Query"; "QueryRow"; "StdConn"] /\
  missing (method_set std_methods "tx") Conn
    = ["Ping"; "BeginTx"; "Close"; "StdConn"].
Proof. repeat split; reflexivity. Qed.

(** C2 (amended): the package declares the interface [Conn] with the
    operations Ping, Prepare, BeginTx, Exec, Query, QueryRow, Close and
    StdConn, but declares no wrapper type for it: as long as the embedded
    native handles have no method named StdConn, none of the wrapper types
    db, stmt, tx (or a pointer to one) satisfies [Conn]; [StdConn] is
    missing from each. *)
Theorem Conn_has_no_wrapper (native : ty -> list method) :
  (forall e m, In e [TPtr (TImported pkg_sql "DB");
                     TPtr (TImported pkg_sql "Stmt");
                     TPtr (TImported pkg_sql "Tx")] ->
               In m (native e) -> mname m <> "StdConn") ->
  map mname Conn = ["Ping"; "Prepare"; "BeginTx"; "Exec"; "Query"; "QueryRow";
                    "Close"; "StdConn"] /\
  map fst structs = ["db"; "stmt"; "tx"] /\
  forall t, In t wrapper_types ->
            implements (method_set_of native t) Conn = false /\
            In "StdConn" (missing (method_set_of native t) Conn).
Proof.
  intros Hnative. split; [reflexivity|]. split; [reflexivity|].
  assert (forall s e, assoc s structs = Some [e] ->
            In e [TPtr (TImported pkg_sql "DB");
                  TPtr (TImported pkg_sql "Stmt");
                  TPtr (TImported pkg_sql "Tx")] ->
            has_name "StdConn" (own_methods s) = false ->
            has_name "StdConn" (method_set native s) = false) as Hlack.
  { intros s e Hs He Hown. apply method_set_lacks; [exact Hown|].
    intros m Hm. unfold promoted in Hm. rewrite Hs in Hm.
    simpl in Hm. rewrite app_nil_r in Hm.
    assert (resolve e = e) as Hr
        by (simpl in He; intuition (subst; reflexivity)).
    rewrite Hr in Hm. exact (Hnative e m He Hm). }
  assert (In (Method "StdConn" (Sig [] None [TPtr (TImported pkg_sql "Conn")]))
             Conn) as HinConn by (simpl; in_list).
  intros t Hin. simpl in Hin.
  repeat (destruct Hin as [<-|Hin];
          [ apply (implements_needs_name _ Conn _ HinConn);
            cbn [method_set_of structs assoc String.eqb Ascii.eqb Bool.eqb];
            eapply Hlack; [reflexivity | simpl; in_list | reflexivity] |]).
  destruct Hin.
Qed.

Lemma Conn_has_no_wrapper_witness :
  implements (method_set_of std_methods (TLocal "db")) Conn = false /\
  In "StdConn" (missing (method_set_of std_methods (TLocal "db")) Conn).
Proof.
  apply (Conn_has_no_wrapper std_methods).
  - intros e m He Hm. simpl in He.
    repeat (destruct He as [<-|He];
            [ simpl in Hm;
              repeat (destruct Hm as [<-|Hm]; [discriminate|]);
              destruct Hm |]).
    destruct He.
  - simpl. in_list.
Defined.

(** ** Type aliases *)

(** C8: every re-exported value type is declared as an alias of the
    database/sql type of the same name, so it denotes that very type: the
    two are identical types, also under a pointer, and none of the names is
    a newly defined struct or interface.  In the embedding the alias and the
    native type are one type, and [Named] is [sql.Named]. *)
Theorem reexports_are_aliases :
  map fst aliases = reexported /\
  (forall n, In n reexported ->
     assoc n aliases = Some (TImported pkg_sql n) /\
     resolve (TLocal n) = TImported pkg_sql n /\
     identical (TLocal n) (TImported pkg_sql n) = true /\
     identical (TPtr (TLocal n)) (TPtr (TImported pkg_sql n)) = true /\
     assoc n structs = None /\
     assoc n interfaces = None) /\
  (forall N : Wrappers.Native,
     @Wrappers.TxOptions N = @Wrappers.sql_TxOptions N /\
     @Wrappers.Row N = @Wrappers.sql_Row N /\
     @Wrappers.Rows N = @Wrappers.sql_Rows N /\
     @Wrappers.Result N = @Wrappers.sql_Result N /\
     @Wrappers.NamedArg N = @Wrappers.sql_NamedArg N /\
     (forall name value,
        @Wrappers.Named N name value = @Wrappers.sql_Named N name value)).
Proof.
  split; [reflexivity|]. split.
  - intros n Hin. simpl in Hin.
    repeat (destruct Hin as [<-|Hin]; [repeat split; reflexivity|]).
    destruct Hin.
  - intros N. repeat split; reflexivity.
Qed.

(** A defined type, by contrast, is identical only to itself: the wrapper
    struct [db] is not the native [sql.DB]. *)
Example db_is_not_an_alias :
  identical (TLocal "db") (TImported pkg_sql "DB") = false /\
  resolve (TLocal "db") = TLocal "db".
Proof. split; reflexivity. Qed.

(** ** Scanner *)

(** C9: both native row shapes satisfy [Scanner] as they are: the method
    sets of [*Row] and [*Rows] (the aliases, identical to [*sql.Row] and
    [*sql.Rows]) each contain [Scan(...interface{}) error], the only method
    of [Scanner]; no wrapper struct is declared for either. *)
Theorem rows_satisfy_Scanner :
  Scanner = [Method "Scan" (Sig [] (Some TEmptyInterface) [t_error])] /\
  implements (method_set_of std_methods (TPtr (TLocal "Row"))) Scanner = true /\
  implements (method_set_of std_methods (TPtr (TLocal "Rows"))) Scanner = true /\
  implements (method_set_of std_methods (TPtr (TImported pkg_sql "Row")))
             Scanner = true /\
  implements (method_set_of std_methods (TPtr (TImported pkg_sql "Rows")))
             Scanner = true /\
  identical (TPtr (TLocal "Row")) (TPtr (TImported pkg_sql "Row")) = true /\
  identical (TPtr (TLocal "Rows")) (TPtr (TImported pkg_sql "Rows")) = true /\
  assoc "Row" structs = None /\ assoc "Rows" structs = None.
Proof. repeat split; reflexivity. Qed.

End StaticFacts.

(* ================================================================== *)
(** * Facts about the wrapper methods *)
(* ================================================================== *)

Module ForwardingFacts.
Import Wrappers.

Section Forwarding.

Context {N : Native}.

(** [Open], [db.Prepare], [db.BeginTx] and [tx.Prepare] all unfold to
    [call_and_wrap]; its properties are proved once. *)
Section Handle.

Context {H Wr : Type} (mk : ptr H -> Wr) (std : Wr -> ptr H).
Hypothesis std_mk : forall h, std (mk h) = h.

Let body := call_and_wrap mk.

Lemma body_ok (native : go (ptr H * error)) w R w' :
  native w = Returns (R, None) w' ->
  body native w = Returns (Some (mk R), None) w'.
Proof. intros E. unfold body, call_and_wrap, bind. rewrite E. reflexivity. Qed.

Lemma body_err (native : go (ptr H * error)) w R E w' :
  native w = Returns (R, Some E) w' ->
  body native w = Returns (None, Some E) w'.
Proof. intros Hn. unfold body, call_and_wrap, bind. rewrite Hn. reflexivity. Qed.

Lemma body_panics (native : go (ptr H * error)) w :
  native w = Panics -> body native w = Panics.
Proof. intros Hn. unfold body, call_and_wrap, bind. rewrite Hn. reflexivity. Qed.

Lemma body_inv (native : go (ptr H * error)) w x e w' :
  body native w = Returns (x, e) w' ->
  exists r, native w = Returns (r, e) w'.
Proof.
  unfold body, call_and_wrap, bind. destruct (native w) as [[r err] w1|]; [|discriminate].
  destruct err as [E|]; simpl; unfold ret; intros Hb;
    inversion Hb; subst; eauto.
Qed.

Lemma body_forwards_handle (native : go (ptr H * error)) :
  forwards_handle std (body native) native.
Proof.
  intros w. split; [apply body_panics|]. split.
  - intros R w' E. exists (mk R). split; [now apply body_ok|apply std_mk].
  - intros R E w' Hn. now apply body_err with (R := R).
Qed.

Lemma body_iff_success (native : go (ptr H * error)) :
  wrapper_iff_success std (body native) native.
Proof.
  intros w. split.
  - intros r [E|] w' Hn.
    + exists None. split; [now apply body_err with (R := r)|].
      split; [split; intros; congruence|].
      split; [intros; congruence|reflexivity].
    + exists (Some (mk r)). split; [now apply body_ok|].
      split; [split; intros; congruence|].
      split; [intros _; exists (mk r); split; [reflexivity|apply std_mk]|].
      intros; congruence.
  - intros x e w'. apply body_inv.
Qed.

End Handle.

Lemma db_StdDB_mk h : db_StdDB (mk_db h) = h.
Proof. reflexivity. Qed.
Lemma stmt_StdStmt_mk h : stmt_StdStmt (mk_stmt h) = h.
Proof. reflexivity. Qed.
Lemma tx_StdTx_mk h : tx_StdTx (mk_tx h) = h.
Proof. reflexivity. Qed.

Lemma Open_forwards driverName dataSourceName :
  forwards_handle db_StdDB (Open driverName dataSourceName)
          (sql_Open driverName dataSourceName).
Proof. apply (body_forwards_handle mk_db db_StdDB db_StdDB_mk). Qed.

Lemma db_Prepare_forwards d ctx query :
  forwards_handle stmt_StdStmt (db_Prepare d ctx query)
          (DB_PrepareContext (db_StdDB d) ctx query).
Proof. apply (body_forwards_handle mk_stmt stmt_StdStmt stmt_StdStmt_mk). Qed.

Lemma db_BeginTx_forwards d ctx opts :
  forwards_handle tx_StdTx (db_BeginTx d ctx opts)
          (DB_BeginTx (db_StdDB d) ctx opts).
Proof. apply (body_forwards_handle mk_tx tx_StdTx tx_StdTx_mk). Qed.

Lemma tx_Prepare_forwards t ctx query :
  forwards_handle stmt_StdStmt (tx_Prepare t ctx query)
          (Tx_PrepareContext (tx_StdTx t) ctx query).
Proof. apply (body_forwards_handle mk_stmt stmt_StdStmt stmt_StdStmt_mk). Qed.

Lemma Open_iff_success driverName dataSourceName :
  wrapper_iff_success db_StdDB (Open driverName dataSourceName)
              (sql_Open driverName dataSourceName).
Proof. apply (body_iff_success mk_db db_StdDB db_StdDB_mk). Qed.

Lemma db_Prepare_iff_success d ctx query :
  wrapper_iff_success stmt_StdStmt (db_Prepare d ctx query)
              (DB_PrepareContext (db_StdDB d) ctx query).
Proof. apply (body_iff_success mk_stmt stmt_StdStmt stmt_StdStmt_mk). Qed.

Lemma db_BeginTx_iff_success d ctx opts :
  wrapper_iff_success tx_StdTx (db_BeginTx d ctx opts)
              (DB_BeginTx (db_StdDB d) ctx opts).
Proof. apply (body_iff_success mk_tx tx_StdTx tx_StdTx_mk). Qed.

Lemma tx_Prepare_iff_success t ctx query :
  wrapper_iff_success stmt_StdStmt (tx_Prepare t ctx query)
              (Tx_PrepareContext (tx_StdTx t) ctx query).
Proof. apply (body_iff_success mk_stmt stmt_StdStmt stmt_StdStmt_mk). Qed.

(** C1: every wrapper operation returns exactly what the owned native handle
    returns for the same arguments.  Ping, Exec, Query, QueryRow, Commit,
    Rollback and Close give the native result, error, final state and panic
    unchanged; Prepare and BeginTx give the native error unchanged, and the
    native handle unchanged inside the wrapper they return.  This holds for
    every native layer, hence also for one that records its arguments. *)
Theorem wrappers_forward :
  (forall d ctx,
     forwards (db_Ping d ctx) (DB_PingContext (db_StdDB d) ctx)) /\
  (forall d ctx query,
     forwards_handle stmt_StdStmt (db_Prepare d ctx query)
                     (DB_PrepareContext (db_StdDB d) ctx query)) /\
  (forall d ctx opts,
     forwards_handle tx_StdTx (db_BeginTx d ctx opts)
                     (DB_BeginTx (db_StdDB d) ctx opts)) /\
  (forall d ctx query args,
     forwards (db_Exec d ctx query args)
              (DB_ExecContext (db_StdDB d) ctx query args)) /\
  (forall d ctx query args,
     forwards (db_Query d ctx query args)
              (DB_QueryContext (db_StdDB d) ctx query args)) /\
  (forall d ctx query args,
     forwards (db_QueryRow d ctx query args)
              (DB_QueryRowContext (db_StdDB d) ctx query args)) /\
  (forall d, forwards (db_Close d) (DB_Close (db_StdDB d))) /\
  (forall s ctx args,
     forwards (stmt_Exec s ctx args)
              (Stmt_ExecContext (stmt_StdStmt s) ctx args)) /\
  (forall s ctx args,
     forwards (stmt_Query s ctx args)
              (Stmt_QueryContext (stmt_StdStmt s) ctx args)) /\
  (forall s ctx args,
     forwards (stmt_QueryRow s ctx args)
              (Stmt_QueryRowContext (stmt_StdStmt s) ctx args)) /\
  (forall s, forwards (stmt_Close s) (Stmt_Close (stmt_StdStmt s))) /\
  (forall t, forwards (tx_Commit t) (Tx_Commit (tx_StdTx t))) /\
  (forall t, forwards (tx_Rollback t) (Tx_Rollback (tx_StdTx t))) /\
  (forall t ctx query,
     forwards_handle stmt_StdStmt (tx_Prepare t ctx query)
                     (Tx_PrepareContext (tx_StdTx t) ctx query)) /\
  (forall t ctx query args,
     forwards (tx_Exec t ctx query args)
              (Tx_ExecContext (tx_StdTx t) ctx query args)) /\
  (forall t ctx query args,
     forwards (tx_Query t ctx query args)
              (Tx_QueryContext (tx_StdTx t) ctx query args)) /\
  (forall t ctx query args,
     forwards (tx_QueryRow t ctx query args)
              (Tx_QueryRowContext (tx_StdTx t) ctx query args)).
Proof.
  repeat match goal with |- _ /\ _ => split end;
    intros;
    first [ apply db_Prepare_forwards
          | apply db_BeginTx_forwards
          | apply tx_Prepare_forwards
          | intros w; reflexivity ].
Qed.

(** C3: [OpenDB] has no failing path.  Whenever [sql.OpenDB] returns a
    handle, [OpenDB] returns a non-nil DB wrapper around that very handle
    together with a nil error, and [OpenDB] never returns anything else. *)
Theorem OpenDB_never_fails (c : Connector) (w : World) :
  (forall h w', sql_OpenDB c w = Returns h w' ->
     OpenDB c w = Returns (Some (mk_db h), None) w' /\
     db_StdDB (mk_db h) = h) /\
  (forall x e w', OpenDB c w = Returns (x, e) w' ->
     e = None /\
     exists h, sql_OpenDB c w = Returns h w' /\ x = Some (mk_db h)) /\
  (OpenDB c w = Panics <-> sql_OpenDB c w = Panics).
Proof.
  unfold OpenDB, bind, ret.
  destruct (sql_OpenDB c w) as [h0 w0|].
  - split; [|split].
    + intros h w' E. inversion E; subst. split; reflexivity.
    + intros x e w' E. inversion E; subst. split; [reflexivity|eauto].
    + split; discriminate.
  - split; [|split].
    + discriminate.
    + discriminate.
    + tauto.
Qed.

(** C4: each wrapper-producing operation returns a wrapper with a nil error
    exactly when the native call it delegates to succeeds; when the native
    call fails it returns that error and a nil wrapper. *)
Theorem wrapper_returned_iff_native_succeeds :
  (forall driverName dataSourceName,
     wrapper_iff_success db_StdDB (Open driverName dataSourceName)
                         (sql_Open driverName dataSourceName)) /\
  (forall d ctx query,
     wrapper_iff_success stmt_StdStmt (db_Prepare d ctx query)
                         (DB_PrepareContext (db_StdDB d) ctx query)) /\
  (forall d ctx opts,
     wrapper_iff_success tx_StdTx (db_BeginTx d ctx opts)
                         (DB_BeginTx (db_StdDB d) ctx opts)) /\
  (forall t ctx query,
     wrapper_iff_success stmt_StdStmt (tx_Prepare t ctx query)
                         (Tx_PrepareContext (tx_StdTx t) ctx query)).
Proof.
  split; [|split; [|split]]; intros.
  - apply Open_iff_success.
  - apply db_Prepare_iff_success.
  - apply db_BeginTx_iff_success.
  - apply tx_Prepare_iff_success.
Qed.

(** C7: wrapping then unwrapping is the identity on native handles, and the
    DB wrapper of a successful [Open] exposes through [StdDB] the handle
    that [sql.Open] produced. *)
Theorem std_accessors_return_wrapped_handle :
  (forall h, db_StdDB (mk_db h) = h) /\
  (forall s, stmt_StdStmt (mk_stmt s) = s) /\
  (forall t, tx_StdTx (mk_tx t) = t) /\
  (forall driverName dataSourceName w h w',
     sql_Open driverName dataSourceName w = Returns (h, None) w' ->
     exists d, Open driverName dataSourceName w = Returns (Some d, None) w' /\
               db_StdDB d = h).
Proof.
  split; [reflexivity|]. split; [reflexivity|]. split; [reflexivity|].
  intros driverName dataSourceName w h w' E.
  destruct (Open_forwards driverName dataSourceName w) as (_ & Hok & _).
  exact (Hok h w' E).
Qed.

(** ** Transactions *)

(** Once the native transaction is finished, every further Commit or
    Rollback through the wrapper returns the native error and changes
    nothing. *)
Lemma finished_is_absorbing (ErrTxDone : Err)
      (tx_state : sql_Tx -> World -> tx_status) (h : sql_Tx) (t : tx) :
  tx_contract ErrTxDone tx_state ->
  tx_StdTx t = Some h ->
  forall ops w,
    tx_state h w <> TxOpen ->
    exists w', tx_finish_all t ops w
               = Returns (repeat (Some ErrTxDone) (length ops)) w' /\
               tx_state h w' = tx_state h w.
Proof.
  intros HC Ht. destruct t as [p]. simpl in Ht. subst p.
  induction ops as [|op rest IH]; intros w Hdone.
  - exists w. split; reflexivity.
  - assert (exists w1, tx_finish (mk_tx (Some h)) op w
                       = Returns (Some ErrTxDone) w1 /\
                       tx_state h w1 = tx_state h w) as [w1 [E1 S1]].
    { destruct op; simpl; unfold tx_Commit, tx_Rollback; simpl.
      - apply (commit_done _ _ HC); exact Hdone.
      - apply (rollback_done _ _ HC); exact Hdone. }
    destruct (IH w1) as [w2 [E2 S2]]; [congruence|].
    exists w2. split; [|congruence].
    cbn [tx_finish_all]. unfold bind at 1. rewrite E1.
    unfold bind at 1. rewrite E2. reflexivity.
Qed.

(** C6: the wrapper keeps no state of its own and forwards Commit and
    Rollback to the native handle each time.  Under database/sql's
    transaction contract, a transaction that was open and whose Commit (or
    Rollback) succeeded is committed (or rolled back); calling Commit again
    on the same wrapper returns the native [ErrTxDone], not nil, and so does
    every later sequence of Commit and Rollback calls, with the transaction
    staying in its terminal state. *)
Theorem second_Commit_returns_native_error (ErrTxDone : Err)
        (tx_state : sql_Tx -> World -> tx_status)
        (h : sql_Tx) (t : tx) (op : tx_end) (w0 w1 : World) :
  tx_contract ErrTxDone tx_state ->
  tx_StdTx t = Some h ->
  tx_state h w0 = TxOpen ->
  tx_finish t op w0 = Returns None w1 ->
  tx_state h w1 = terminal_of op /\
  (exists w2, tx_Commit t w1 = Returns (Some ErrTxDone) w2 /\
              tx_state h w2 = terminal_of op) /\
  (forall ops, exists w2,
      tx_finish_all t ops w1
      = Returns (repeat (Some ErrTxDone) (length ops)) w2 /\
      tx_state h w2 = terminal_of op) /\
  forwards (tx_Commit t) (Tx_Commit (tx_StdTx t)) /\
  forwards (tx_Rollback t) (Tx_Rollback (tx_StdTx t)).
Proof.
  intros HC Ht Hopen Hfirst.
  assert (tx_state h w1 = terminal_of op) as Hterm.
  { destruct t as [p]. simpl in Ht. subst p.
    destruct op; simpl in *; unfold tx_Commit, tx_Rollback in Hfirst;
      simpl in Hfirst.
    - exact (commit_open _ _ HC h w0 w1 Hopen Hfirst).
    - exact (rollback_open _ _ HC h w0 w1 Hopen Hfirst). }
  assert (tx_state h w1 <> TxOpen) as Hdone
      by (rewrite Hterm; destruct op; discriminate).
  split; [exact Hterm|]. split; [|split; [|split]].
  - destruct t as [p]. simpl in Ht. subst p.
    destruct (commit_done _ _ HC h w1 Hdone) as [w2 [E S]].
    exists w2. split; [exact E|congruence].
  - intros ops.
    destruct (finished_is_absorbing ErrTxDone tx_state h t HC Ht ops w1 Hdone)
      as [w2 [E S]].
    exists w2. split; [exact E|congruence].
  - intros w. reflexivity.
  - intros w. reflexivity.
Qed.

(** ** Zero values *)

(** A wrapper-producing operation panics exactly when the native call does. *)
Lemma panics_iff_native {H Wr : Type} (std : Wr -> ptr H)
      (wrapper : go (option Wr * error)) (native : go (ptr H * error)) :
  forwards_handle std wrapper native ->
  wrapper_iff_success std wrapper native ->
  forall w, wrapper w = Panics <-> native w = Panics.
Proof.
  intros Hf Hs w. split.
  - intros Hw. destruct (native w) as [[r e] w'|] eqn:E; [|reflexivity].
    destruct (Hs w) as [Hret _].
    destruct (Hret r e w' E) as (x & Hx & _). congruence.
  - apply (Hf w).
Qed.

Lemma nil_db_panics (d : db) :
  nil_receiver_panics -> db_StdDB d = nil -> db_panics d.
Proof.
  intros HP Hd. destruct d as [p]. simpl in Hd. subst p.
  unfold db_panics, db_Ping, db_Prepare, db_BeginTx, db_Exec, db_Query,
    db_QueryRow, db_Driver, db_Close, db_ExecContext, db_QueryContext,
    db_QueryRowContext, bind; simpl.
  repeat split; intros.
  - apply (nil_DB_PingContext HP).
  - now rewrite (nil_DB_PrepareContext HP).
  - now rewrite (nil_DB_BeginTx HP).
  - apply (nil_DB_ExecContext HP).
  - apply (nil_DB_QueryContext HP).
  - apply (nil_DB_QueryRowContext HP).
  - apply (nil_DB_Driver HP).
  - apply (nil_DB_Close HP).
Qed.

Lemma nil_stmt_panics (s : stmt) :
  nil_receiver_panics -> stmt_StdStmt s = nil -> stmt_panics s.
Proof.
  intros HP Hs. destruct s as [p]. simpl in Hs. subst p.
  unfold stmt_panics, stmt_Exec, stmt_Query, stmt_QueryRow, stmt_Close; simpl.
  repeat split; intros.
  - apply (nil_Stmt_ExecContext HP).
  - apply (nil_Stmt_QueryContext HP).
  - apply (nil_Stmt_QueryRowContext HP).
  - apply (nil_Stmt_Close HP).
Qed.

Lemma nil_tx_finish_panics (t : tx) :
  nil_receiver_panics -> tx_StdTx t = nil -> tx_finish_panics t.
Proof.
  intros HP Ht. destruct t as [p]. simpl in Ht. subst p.
  unfold tx_finish_panics, tx_Commit, tx_Rollback; simpl.
  split; intros.
  - apply (nil_Tx_Commit HP).
  - apply (nil_Tx_Rollback HP).
Qed.

(** C10: no wrapper method guards against a missing handle.  On the zero
    values [db{}], [stmt{}], [tx{}] every operation is the native operation
    applied to the nil handle, with no other branch: it returns what the
    native layer returns on nil and panics where the native layer does.
    With database/sql's nil-receiver behaviour, every operation of a db or
    stmt wrapper whose handle is nil panics, and so do Commit and Rollback
    of a tx wrapper whose handle is nil; hence a wrapper whose operations
    are safe (in a world that has a state at all) holds a non-nil handle. *)
Theorem zero_value_delegates_to_nil_handle :
  (db_StdDB db_zero = nil /\ stmt_StdStmt stmt_zero = nil /\
   tx_StdTx tx_zero = nil) /\
  ((forall ctx, forwards (db_Ping db_zero ctx) (DB_PingContext nil ctx)) /\
   (forall ctx query,
      forwards_handle stmt_StdStmt (db_Prepare db_zero ctx query)
                      (DB_PrepareContext nil ctx query)) /\
   (forall ctx opts,
      forwards_handle tx_StdTx (db_BeginTx db_zero ctx opts)
                      (DB_BeginTx nil ctx opts)) /\
   (forall ctx query args,
      forwards (db_Exec db_zero ctx query args)
               (DB_ExecContext nil ctx query args)) /\
   (forall ctx query args,
      forwards (db_Query db_zero ctx query args)
               (DB_QueryContext nil ctx query args)) /\
   (forall ctx query args,
      forwards (db_QueryRow db_zero ctx query args)
               (DB_QueryRowContext nil ctx query args)) /\
   forwards (db_Driver db_zero) (DB_Driver nil) /\
   forwards (db_Close db_zero) (DB_Close nil)) /\
  ((forall ctx args,
      forwards (stmt_Exec stmt_zero ctx args) (Stmt_ExecContext nil ctx args)) /\
   (forall ctx args,
      forwards (stmt_Query stmt_zero ctx args)
               (Stmt_QueryContext nil ctx args)) /\
   (forall ctx args,
      forwards (stmt_QueryRow stmt_zero ctx args)
               (Stmt_QueryRowContext nil ctx args)) /\
   forwards (stmt_Close stmt_zero) (Stmt_Close nil)) /\
  (forwards (tx_Commit tx_zero) (Tx_Commit nil) /\
   forwards (tx_Rollback tx_zero) (Tx_Rollback nil) /\
   (forall ctx query,
      forwards_handle stmt_StdStmt (tx_Prepare tx_zero ctx query)
                      (Tx_PrepareContext nil ctx query)) /\
   (forall ctx query args,
      forwards (tx_Exec tx_zero ctx query args)
               (Tx_ExecContext nil ctx query args)) /\
   (forall ctx query args,
      forwards (tx_Query tx_zero ctx query args)
               (Tx_QueryContext nil ctx query args)) /\
   (forall ctx query args,
      forwards (tx_QueryRow tx_zero ctx query args)
               (Tx_QueryRowContext nil ctx query args))) /\
  ((forall ctx query w,
      db_Prepare db_zero ctx query w = Panics <->
      DB_PrepareContext nil ctx query w = Panics) /\
   (forall ctx opts w,
      db_BeginTx db_zero ctx opts w = Panics <->
      DB_BeginTx nil ctx opts w = Panics) /\
   (forall ctx query w,
      tx_Prepare tx_zero ctx query w = Panics <->
      Tx_PrepareContext nil ctx query w = Panics)) /\
  (nil_receiver_panics ->
   (db_panics db_zero /\ stmt_panics stmt_zero /\
    tx_finish_panics tx_zero) /\
   (forall d, db_StdDB d = nil -> db_panics d) /\
   (forall s, stmt_StdStmt s = nil -> stmt_panics s) /\
   (forall t, tx_StdTx t = nil -> tx_finish_panics t) /\
   (inhabited World ->
    (forall d, db_safe d -> db_StdDB d <> nil) /\
    (forall s, stmt_safe s -> stmt_StdStmt s <> nil) /\
    (forall t, tx_safe t -> tx_StdTx t <> nil)) /\
   (forall d, ~ db_panics d -> db_StdDB d <> nil) /\
   (forall s, ~ stmt_panics s -> stmt_StdStmt s <> nil) /\
   (forall t, ~ tx_finish_panics t -> tx_StdTx t <> nil)).
Proof.
  split; [repeat split|].
  split.
  { repeat match goal with |- _ /\ _ => split end; intros;
      first [ apply (db_Prepare_forwards db_zero)
            | apply (db_BeginTx_forwards db_zero)
            | intros w; reflexivity ]. }
  split.
  { repeat match goal with |- _ /\ _ => split end; intros; intros w;
      reflexivity. }
  split.
  { repeat match goal with |- _ /\ _ => split end; intros;
      first [ apply (tx_Prepare_forwards tx_zero) | intros w; reflexivity ]. }
  split.
  { split; [|split]; intros.
    - apply (panics_iff_native stmt_StdStmt);
        [apply (db_Prepare_forwards db_zero)
        |apply (db_Prepare_iff_success db_zero)].
    - apply (panics_iff_native tx_StdTx);
        [apply (db_BeginTx_forwards db_zero)
        |apply (db_BeginTx_iff_success db_zero)].
    - apply (panics_iff_native stmt_StdStmt);
        [apply (tx_Prepare_forwards tx_zero)
        |apply (tx_Prepare_iff_success tx_zero)]. }
  intros HP.
  split; [repeat split; first [ apply nil_db_panics | apply nil_stmt_panics
                              | apply nil_tx_finish_panics ]; auto|].
  split; [intros d; apply nil_db_panics; exact HP|].
  split; [intros s; apply nil_stmt_panics; exact HP|].
  split; [intros t; apply nil_tx_finish_panics; exact HP|].
  split.
  { intros [w0]. split; [|split].
    - intros d (_ & _ & _ & _ & _ & _ & _ & Hsafe) Hnil.
      destruct (nil_db_panics d HP Hnil)
        as (_ & _ & _ & _ & _ & _ & _ & Hclose).
      exact (Hsafe w0 (Hclose w0)).
    - intros s (_ & _ & _ & Hsafe) Hnil.
      destruct (nil_stmt_panics s HP Hnil) as (_ & _ & _ & Hclose).
      exact (Hsafe w0 (Hclose w0)).
    - intros t [Hsafe _] Hnil.
      destruct (nil_tx_finish_panics t HP Hnil) as [Hcommit _].
      exact (Hsafe w0 (Hcommit w0)). }
  split; [intros d Hd Hnil; exact (Hd (nil_db_panics d HP Hnil))|].
  split; [intros s Hs Hnil; exact (Hs (nil_stmt_panics s HP Hnil))|].
  intros t Ht Hnil; exact (Ht (nil_tx_finish_panics t HP Hnil)).
Qed.

End Forwarding.

(** ** The fake native layer honours the contracts *)

Lemma fake_tx_state_done (id : nat) (w : Fake.world) :
  Fake.tx_state id w <> TxOpen ->
  exists s, Fake.lookup_tx id (Fake.finished w) = Some s.
Proof.
  unfold Fake.tx_state.
  destruct (Fake.lookup_tx id (Fake.finished w)) as [s|]; [eauto|congruence].
Qed.

Lemma fake_finish_open (op : tx_end) (id : nat) (w w' : Fake.world) :
  Fake.finish op (Some id) w = Returns None w' ->
  Fake.tx_state id w' = terminal_of op.
Proof.
  unfold Fake.finish, Fake.on, Fake.record, bind; simpl.
  destruct (Fake.lookup_tx id (Fake.finished w)); [discriminate|].
  intros E. inversion E; subst. unfold Fake.tx_state; simpl.
  now rewrite Nat.eqb_refl.
Qed.

Lemma fake_finish_done (op : tx_end) (id : nat) (w : Fake.world) :
  Fake.tx_state id w <> TxOpen ->
  exists w', Fake.finish op (Some id) w = Returns (Some Fake.ErrTxDone) w' /\
             Fake.tx_state id w' = Fake.tx_state id w.
Proof.
  intros Hdone. destruct (fake_tx_state_done id w Hdone) as [s Hs].
  unfold Fake.finish, Fake.on, Fake.record, bind; simpl. rewrite Hs.
  eexists. split; [reflexivity|]. reflexivity.
Qed.

Lemma fake_tx_contract :
  @tx_contract Fake.native Fake.ErrTxDone Fake.tx_state.
Proof.
  constructor.
  - intros h w w' _ E. exact (fake_finish_open Commit h w w' E).
  - intros h w w' _ E. exact (fake_finish_open Rollback h w w' E).
  - intros h w Hdone. exact (fake_finish_done Commit h w Hdone).
  - intros h w Hdone. exact (fake_finish_done Rollback h w Hdone).
Qed.

Lemma fake_nil_receiver_panics : @nil_receiver_panics Fake.native.
Proof. constructor; intros; reflexivity. Qed.

Lemma ctx_first_nil_receiver_panics :
  @nil_receiver_panics Fake.ctx_first_native.
Proof. constructor; intros; reflexivity. Qed.

(** ** The theorems at work on the fake *)

Example open_prepare_query_select_1 :
  Fake.open_prepare_query "SELECT 1" Fake.empty
  = Returns (Some [[1]], None)
      (Fake.World_
         [ Fake.Call "Stmt.QueryContext" "SELECT 1" "SELECT 1" [];
           Fake.Call "DB.PrepareContext" "dsn" "SELECT 1" [];
           Fake.Call "Open" "fake" "dsn" [] ] [] 0).
Proof. reflexivity. Qed.

Example open_prepare_query_syntax_error :
  Fake.open_prepare_query "" Fake.empty
  = Returns (None, Some Fake.ErrSyntax)
      (Fake.World_
         [ Fake.Call "DB.PrepareContext" "dsn" "" [];
           Fake.Call "Open" "fake" "dsn" [] ] [] 0).
Proof. reflexivity. Qed.

Example commit_commit_rollback :
  exists w, tx_finish_all Fake.tx0 [Commit; Commit; Rollback] Fake.empty
            = Returns [None; Some Fake.ErrTxDone; Some Fake.ErrTxDone] w /\
            Fake.tx_state 0 w = TxCommitted.
Proof. eexists. split; reflexivity. Qed.

Example canceled_context_is_forwarded :
  db_Ping Fake.dsn true Fake.empty
  = Returns (Some Fake.ErrCanceled)
            (Fake.World_ [Fake.Call "DB.PingContext" "dsn" "" []] [] 0).
Proof. reflexivity. Qed.

Lemma wrappers_forward_witness :
  db_Exec Fake.dsn false "INSERT" [1; 2] Fake.empty
  = Returns (2, None)
            (Fake.World_ [Fake.Call "DB.ExecContext" "dsn" "INSERT" [1; 2]]
                         [] 0) /\
  db_Prepare Fake.dsn false "" Fake.empty
  = Returns (None, Some Fake.ErrSyntax)
            (Fake.World_ [Fake.Call "DB.PrepareContext" "dsn" "" []] [] 0) /\
  exists s, db_Prepare Fake.dsn false "SELECT 1" Fake.empty
            = Returns (Some s, None)
                (Fake.World_
                   [Fake.Call "DB.PrepareContext" "dsn" "SELECT 1" []] [] 0) /\
            stmt_StdStmt s = Some "SELECT 1".
Proof.
  destruct (@wrappers_forward Fake.native)
    as (_ & Hprepare & _ & Hexec & _).
  split; [|split].
  - rewrite (Hexec Fake.dsn false "INSERT" [1; 2] Fake.empty). reflexivity.
  - destruct (Hprepare Fake.dsn false "" Fake.empty) as (_ & _ & Herr).
    apply (Herr None). reflexivity.
  - destruct (Hprepare Fake.dsn false "SELECT 1" Fake.empty) as (_ & Hok & _).
    apply Hok. reflexivity.
Defined.

Lemma OpenDB_never_fails_witness :
  OpenDB (N := Fake.native) "conn" Fake.empty
  = Returns (Some (@mk_db Fake.native (Some "conn")), None)
            (Fake.World_ [Fake.Call "OpenDB" "conn" "" []] [] 0).
Proof.
  destruct (@OpenDB_never_fails Fake.native "conn" Fake.empty) as (Hok & _).
  apply Hok. reflexivity.
Defined.

Lemma wrapper_returned_iff_native_succeeds_witness :
  (exists x, Open (N := Fake.native) "fake" "dsn" Fake.empty
             = Returns (x, None)
                       (Fake.World_ [Fake.Call "Open" "fake" "dsn" []] [] 0) /\
             x <> None) /\
  (exists x, Open (N := Fake.native) "pg" "dsn" Fake.empty
             = Returns (x, Some Fake.ErrUnknownDriver)
                       (Fake.World_ [Fake.Call "Open" "pg" "dsn" []] [] 0) /\
             x = None).
Proof.
  destruct (@wrapper_returned_iff_native_succeeds Fake.native) as (Hopen & _).
  split.
  - destruct (Hopen "fake" "dsn" Fake.empty) as (Hfwd & _).
    destruct (Hfwd (Some "dsn") None
                (Fake.World_ [Fake.Call "Open" "fake" "dsn" []] [] 0)
                eq_refl) as (x & Hx & Hiff & _).
    exists x. split; [exact Hx|]. apply Hiff. reflexivity.
  - destruct (Hopen "pg" "dsn" Fake.empty) as (Hfwd & _).
    destruct (Hfwd None (Some Fake.ErrUnknownDriver)
                (Fake.World_ [Fake.Call "Open" "pg" "dsn" []] [] 0)
                eq_refl) as (x & Hx & _ & _ & Hnil).
    exists x. split; [exact Hx|]. apply Hnil. discriminate.
Defined.

Lemma std_accessors_return_wrapped_handle_witness :
  exists d, Open (N := Fake.native) "fake" "dsn" Fake.empty
            = Returns (Some d, None)
                      (Fake.World_ [Fake.Call "Open" "fake" "dsn" []] [] 0) /\
            db_StdDB d = Some "dsn".
Proof.
  destruct (@std_accessors_return_wrapped_handle Fake.native)
    as (_ & _ & _ & Hopen).
  apply Hopen. reflexivity.
Defined.

Lemma second_Commit_returns_native_error_witness :
  Fake.tx_state 0 Fake.empty = TxOpen /\
  exists w1,
    tx_Commit Fake.tx0 Fake.empty = Returns None w1 /\
    Fake.tx_state 0 w1 = TxCommitted /\
    exists w2,
      tx_Commit Fake.tx0 w1
      = Returns (Some Fake.ErrTxDone) w2 /\
      Fake.tx_state 0 w2 = TxCommitted.
Proof.
  split; [reflexivity|].
  eexists. split; [reflexivity|].
  destruct (@second_Commit_returns_native_error Fake.native
              Fake.ErrTxDone Fake.tx_state 0 Fake.tx0 Commit
              Fake.empty _ fake_tx_contract eq_refl eq_refl eq_refl)
    as (Hstate & Hsecond & _).
  split; [exact Hstate|exact Hsecond].
Defined.

Lemma zero_value_delegates_to_nil_handle_witness :
  db_Ping (N := Fake.ctx_first_native) db_zero false Fake.empty = Panics /\
  stmt_Close (N := Fake.ctx_first_native) stmt_zero Fake.empty = Panics /\
  tx_Commit (N := Fake.ctx_first_native) tx_zero Fake.empty = Panics /\
  tx_Rollback (N := Fake.ctx_first_native) tx_zero Fake.empty = Panics /\
  ~ tx_safe (N := Fake.ctx_first_native) tx_zero.
Proof.
  destruct (@zero_value_delegates_to_nil_handle Fake.ctx_first_native)
    as (_ & _ & _ & _ & _ & Hpanics).
  destruct (Hpanics ctx_first_nil_receiver_panics)
    as ((Hdb & Hstmt & Hcommit & Hrollback) & _ & _ & _ & Hsafe & _).
  split; [|split; [|split; [|split]]].
  - apply Hdb.
  - apply Hstmt.
  - apply Hcommit.
  - apply Hrollback.
  - intros Hs.
    destruct (Hsafe (inhabits Fake.empty)) as (_ & _ & Htx).
    exact (Htx tx_zero Hs eq_refl).
Defined.

(** On that fake, as in database/sql, a nil transaction does not panic in
    the operations that take a context when the context is canceled: the
    wrapper returns the native error there, and panics where the native
    layer does. *)
Example nil_tx_with_canceled_context :
  tx_Exec (N := Fake.ctx_first_native) tx_zero true "INSERT" [1] Fake.empty
  = Returns (0, Some Fake.ErrCanceled) Fake.empty /\
  tx_Prepare (N := Fake.ctx_first_native) tx_zero true "SELECT 1" Fake.empty
  = Returns (None, Some Fake.ErrCanceled) Fake.empty /\
  tx_Exec (N := Fake.ctx_first_native) tx_zero false "INSERT" [1] Fake.empty
  = Panics.
Proof. repeat split; reflexivity. Qed.

End ForwardingFacts.

(* ================================================================== *)
(** * Further facts about the declarations *)
(* ================================================================== *)

Module StaticExtras.
Import Decls.
Import StaticFacts.

(** ** What the wrappers need from database/sql *)

Lemma provides_exists (ms : list method) (im : method) :
  provides ms im = true <->
  exists m, In m ms /\ resolve_method m = resolve_method im.
Proof.
  unfold provides. rewrite existsb_exists. split.
  - intros [m [Hin H]]. exists m. split; [exact Hin|].
    destruct (method_eq_dec (resolve_method m) (resolve_method im));
      [assumption|discriminate].
  - intros [m [Hin H]]. exists m. split; [exact Hin|].
    destruct (method_eq_dec (resolve_method m) (resolve_method im));
      [reflexivity|contradiction].
Qed.

Lemma resolved_name (m im : method) :
  resolve_method m = resolve_method im -> mname m = mname im.
Proof. intros E. apply (f_equal mname) in E. exact E. Qed.

(** An interface method that the struct does not declare is provided by the
    struct exactly when the embedded handle provides it. *)
Lemma provides_undeclared (native : ty -> list method) (t : string)
      (im : method) :
  has_name (mname im) (own_methods t) = false ->
  provides (method_set native t) im = provides (promoted native t) im.
Proof.
  intros Hfree.
  destruct (provides (promoted native t) im) eqn:Hp.
  - apply provides_exists in Hp. destruct Hp as [m [Hin E]].
    apply provides_exists. exists m. split; [|exact E].
    apply promoted_in_method_set; [exact Hin|].
    rewrite (resolved_name m im E). exact Hfree.
  - destruct (provides (method_set native t) im) eqn:Hs; [|reflexivity].
    apply provides_exists in Hs. destruct Hs as [m [Hin E]].
    unfold method_set in Hin. apply in_app_or in Hin.
    destruct Hin as [Hin|Hin].
    + assert (has_name (mname im) (own_methods t) = true) as Hown.
      { apply has_name_in. exists m. split; [exact Hin|].
        exact (resolved_name m im E). }
      congruence.
    + apply filter_In in Hin. destruct Hin as [Hin _].
      assert (provides (promoted native t) im = true) as Hp'
          by (apply provides_exists; eauto).
      congruence.
Qed.

Lemma provides_declared (native : ty -> list method) (t : string)
      (im : method) :
  provides (own_methods t) im = true ->
  provides (method_set native t) im = true.
Proof.
  intros H. unfold method_set. rewrite provides_app, H. reflexivity.
Qed.

Lemma promoted_db (native : ty -> list method) :
  promoted native "db" = native (TPtr (TImported pkg_sql "DB")).
Proof. unfold promoted; simpl. apply app_nil_r. Qed.

Lemma promoted_stmt (native : ty -> list method) :
  promoted native "stmt" = native (TPtr (TImported pkg_sql "Stmt")).
Proof. unfold promoted; simpl. apply app_nil_r. Qed.

Lemma promoted_tx (native : ty -> list method) :
  promoted native "tx" = native (TPtr (TImported pkg_sql "Tx")).
Proof. unfold promoted; simpl. apply app_nil_r. Qed.

(** X1: the compile-time assertions hold exactly when database/sql supplies
    the four methods that sql.go does not declare itself: [db] satisfies
    [DB] iff [*sql.DB] provides [Driver() driver.Driver], [stmt] satisfies
    [Stmt] iff [*sql.Stmt] provides [Close() error], and [tx] satisfies [Tx]
    iff [*sql.Tx] provides [Commit() error] and [Rollback() error]. *)
Theorem assertions_hold_iff_native_provides (native : ty -> list method) :
  (implements (method_set native "db") DB = true <->
   provides (native (TPtr (TImported pkg_sql "DB"))) m_Driver = true) /\
  (implements (method_set native "stmt") Stmt = true <->
   provides (native (TPtr (TImported pkg_sql "Stmt"))) m_Close = true) /\
  (implements (method_set native "tx") Tx = true <->
   provides (native (TPtr (TImported pkg_sql "Tx"))) m_Commit = true /\
   provides (native (TPtr (TImported pkg_sql "Tx"))) m_Rollback = true).
Proof.
  assert (provides (method_set native "db") m_Driver
          = provides (native (TPtr (TImported pkg_sql "DB"))) m_Driver) as ED.
  { rewrite provides_undeclared by reflexivity. now rewrite promoted_db. }
  assert (provides (method_set native "stmt") m_Close
          = provides (native (TPtr (TImported pkg_sql "Stmt"))) m_Close) as EC.
  { rewrite provides_undeclared by reflexivity. now rewrite promoted_stmt. }
  assert (provides (method_set native "tx") m_Commit
          = provides (native (TPtr (TImported pkg_sql "Tx"))) m_Commit) as EM.
  { rewrite provides_undeclared by reflexivity. now rewrite promoted_tx. }
  assert (provides (method_set native "tx") m_Rollback
          = provides (native (TPtr (TImported pkg_sql "Tx"))) m_Rollback)
    as ER.
  { rewrite provides_undeclared by reflexivity. now rewrite promoted_tx. }
  split; [|split].
  - unfold implements, DB. cbn [forallb]. fold m_Driver. rewrite ED.
    rewrite !(provides_declared native "db") by (vm_compute; reflexivity).
    simpl. rewrite andb_true_r. tauto.
  - unfold implements, Stmt. cbn [forallb]. fold m_Close. rewrite EC.
    rewrite !(provides_declared native "stmt") by (vm_compute; reflexivity).
    simpl. rewrite andb_true_r. tauto.
  - unfold implements, Tx. cbn [forallb]. fold m_Commit m_Rollback.
    rewrite EM, ER.
    rewrite !(provides_declared native "tx") by (vm_compute; reflexivity).
    rewrite !andb_true_r. apply andb_true_iff.
Qed.

(** ** The calling convention *)

(** X2: every method of the handle interfaces DB, Conn, Stmt and Tx, and
    every method declared on the wrappers db, stmt and tx, either takes no
    argument at all or takes a [context.Context] as its first parameter;
    and none has a name ending in "Context". *)
Theorem methods_take_context_first (m : method) :
  In m (flat_map snd handle_interfaces) \/ In m (map decl method_decls) ->
  has_suffix "Context" (mname m) = false /\
  ((params (msig m) = [] /\ variadic (msig m) = None) \/
   hd_error (params (msig m)) = Some t_ctx).
Proof.
  intros [H|H]; cbn in H;
    repeat (destruct H as [<-|H];
            [split; [reflexivity
                    |first [left; split; reflexivity | right; reflexivity]]|]);
    destruct H.
Qed.

Lemma methods_take_context_first_witness :
  has_suffix "Context" "Exec" = false /\
  ((params (sig_stmt_args [TLocal "Result"; t_error]) = [] /\
    variadic (sig_stmt_args [TLocal "Result"; t_error]) = None) \/
   hd_error (params (sig_stmt_args [TLocal "Result"; t_error])) = Some t_ctx).
Proof.
  apply (methods_take_context_first
           (Method "Exec" (sig_stmt_args [TLocal "Result"; t_error]))).
  right. simpl. in_list.
Defined.

(** ** Shadowing *)

(** A method of the method set whose name is declared on the struct is the
    declared one. *)
Lemma declared_name_is_declared_method (native : ty -> list method)
      (t : string) (m : method) :
  In m (method_set native t) ->
  has_name (mname m) (own_methods t) = true ->
  In m (own_methods t).
Proof.
  intros Hin Hname. unfold method_set in Hin. apply in_app_or in Hin.
  destruct Hin as [Hin|Hin]; [exact Hin|].
  apply filter_In in Hin. destruct Hin as [_ Hfree].
  rewrite Hname in Hfree. discriminate.
Qed.

(** X3: sql.go declares Ping, Prepare, Exec, Query, QueryRow and BeginTx on
    db, Exec, Query and QueryRow on stmt, and Prepare, Exec, Query and
    QueryRow on tx; so, whatever methods database/sql promotes, a method of
    one of these names in the wrapper's method set is the one sql.go
    declares, and it takes a [context.Context] first: through a wrapper
    these names never reach the native methods of the same name. *)
Theorem wrapper_names_denote_declared_methods (native : ty -> list method)
        (t : string) (m : method) :
  In (t, mname m)
     [ ("db", "Ping"); ("db", "Prepare"); ("db", "Exec"); ("db", "Query");
       ("db", "QueryRow"); ("db", "BeginTx");
       ("stmt", "Exec"); ("stmt", "Query"); ("stmt", "QueryRow");
       ("tx", "Prepare"); ("tx", "Exec"); ("tx", "Query");
       ("tx", "QueryRow") ] ->
  In m (method_set native t) ->
  In m (own_methods t) /\ hd_error (params (msig m)) = Some t_ctx.
Proof.
  intros Hpair Hin.
  assert (has_name (mname m) (own_methods t) = true) as Hname.
  { simpl in Hpair.
    repeat (destruct Hpair as [E|Hpair];
            [injection E as <- En; rewrite <- En; reflexivity|]).
    destruct Hpair. }
  pose proof (declared_name_is_declared_method native t m Hin Hname) as Hown.
  split; [exact Hown|].
  clear Hin Hname. simpl in Hpair.
  repeat (destruct Hpair as [E|Hpair];
          [ injection E as <- En; simpl in Hown;
            repeat (destruct Hown as [<-|Hown];
                    [first [discriminate En | reflexivity]|]);
            destruct Hown |]).
  destruct Hpair.
Qed.

Lemma wrapper_names_denote_declared_methods_witness :
  (In (Method "Ping" (Sig [t_ctx] None [t_error])) (own_methods "db") /\
   hd_error (params (Sig [t_ctx] None [t_error])) = Some t_ctx) /\
  ~ In (Method "Ping" sig_error) (method_set std_methods "db").
Proof.
  split.
  - apply (wrapper_names_denote_declared_methods std_methods "db"
             (Method "Ping" (Sig [t_ctx] None [t_error])));
      simpl; in_list.
  - intros Hin.
    destruct (wrapper_names_denote_declared_methods std_methods "db"
                (Method "Ping" sig_error)) as [_ Hctx];
      [simpl; in_list | exact Hin | discriminate Hctx].
Defined.

(** ** Method names are unambiguous *)

(** Dropping the shadowed methods keeps the promoted names distinct. *)
Lemma unshadowed_names_unique (own ms : list method) :
  NoDup (map mname ms) ->
  NoDup (map mname (filter (fun m => negb (has_name (mname m) own)) ms)).
Proof.
  induction ms as [|m ms IH]; intros Hnd; [constructor|].
  cbn [map] in Hnd. apply NoDup_cons_iff in Hnd.
  destruct Hnd as [Hfresh Hrest].
  cbn [filter]. destruct (negb (has_name (mname m) own));
    [|exact (IH Hrest)].
  cbn [map]. apply NoDup_cons; [|exact (IH Hrest)].
  intros Hin. apply Hfresh.
  apply in_map_iff in Hin. destruct Hin as [m' [E Hin]].
  apply filter_In in Hin. rewrite <- E. apply in_map. tauto.
Qed.

Ltac names_distinct :=
  simpl;
  repeat (apply NoDup_cons;
          [ let H := fresh in
            simpl; intros H;
            repeat (destruct H as [H|H]; [discriminate H|]); exact H |]);
  apply NoDup_nil.

(** The methods declared on one receiver have distinct names. *)
Lemma own_methods_names_unique (t : string) :
  NoDup (map mname (own_methods t)).
Proof.
  destruct (string_dec t "db") as [->|Hdb]; [vm_compute; names_distinct|].
  destruct (string_dec t "stmt") as [->|Hstmt]; [vm_compute; names_distinct|].
  destruct (string_dec t "tx") as [->|Htx]; [vm_compute; names_distinct|].
  apply String.eqb_neq in Hdb, Hstmt, Htx.
  unfold own_methods, method_decls. cbn [filter recv].
  rewrite Hdb, Hstmt, Htx. constructor.
Qed.

(** X4: in the method set of a wrapper no two methods share a name, as
    long as the methods promoted from its embedded handle have distinct
    names: the methods sql.go declares on one receiver are distinct, and a
    promoted method of the same name is shadowed. *)
Theorem method_set_names_unique (native : ty -> list method) (t : string) :
  NoDup (map mname (promoted native t)) ->
  NoDup (map mname (method_set native t)).
Proof.
  intros Hprom. unfold method_set. rewrite map_app. apply NoDup_app.
  - apply own_methods_names_unique.
  - now apply unshadowed_names_unique.
  - intros n Hown Hfil.
    apply in_map_iff in Hfil. destruct Hfil as [m [Hn Hin]].
    apply filter_In in Hin. destruct Hin as [_ Hfree].
    assert (has_name (mname m) (own_methods t) = true) as Hname.
    { apply in_map_iff in Hown. destruct Hown as [m' [Hn' Hin']].
      apply has_name_in. exists m'. split; [exact Hin'|congruence]. }
    rewrite Hname in Hfree. discriminate.
Qed.

Lemma method_set_names_unique_witness :
  NoDup (map mname (method_set std_methods "db")).
Proof.
  apply (method_set_names_unique std_methods "db").
  rewrite promoted_db. vm_compute. names_distinct.
Defined.

(** ** Aliases and spelling *)

Lemma assoc_In {A : Type} (k : string) (v : A) (l : list (string * A)) :
  assoc k l = Some v -> In (k, v) l.
Proof.
  induction l as [|[k' v'] l IH]; simpl; [discriminate|].
  destruct (String.eqb_spec k k') as [->|Hne].
  - intros E. inversion E; subst. now left.
  - intros E. right. now apply IH.
Qed.

(** Every alias of sql.go names the database/sql type of the same name. *)
Lemma alias_target (n : string) (t : ty) :
  assoc n aliases = Some t -> t = TImported pkg_sql n.
Proof.
  intros E. apply assoc_In in E. simpl in E.
  repeat (destruct E as [E|E]; [inversion E; reflexivity|]).
  destruct E.
Qed.

(** X5: resolving aliases is done in one step: no alias of sql.go refers to
    another alias or to a type of the package, so a resolved type contains
    no alias and resolving it again changes nothing. *)
Theorem resolve_idempotent (t : ty) : resolve (resolve t) = resolve t.
Proof.
  induction t as [b|n|pkg n|e IH|e IH|]; cbn [resolve]; try reflexivity.
  - destruct (assoc n aliases) as [target|] eqn:E.
    + rewrite (alias_target n target E). reflexivity.
    + cbn [resolve]. rewrite E. reflexivity.
  - now rewrite IH.
  - now rewrite IH.
Qed.

Lemma resolve_method_idempotent (m : method) :
  resolve_method (resolve_method m) = resolve_method m.
Proof.
  destruct m as [n [ps v rs]]. unfold resolve_method, resolve_sig. simpl.
  f_equal. f_equal.
  - rewrite map_map. apply map_ext. intros; apply resolve_idempotent.
  - destruct v as [e|]; simpl; [now rewrite resolve_idempotent|reflexivity].
  - rewrite map_map. apply map_ext. intros; apply resolve_idempotent.
Qed.

Lemma provides_resolved_l (ms : list method) (im : method) :
  provides (map resolve_method ms) im = provides ms im.
Proof.
  unfold provides. induction ms as [|m ms IH]; cbn [map existsb];
    [reflexivity|].
  rewrite IH, resolve_method_idempotent. reflexivity.
Qed.

Lemma provides_resolved_r (ms : list method) (im : method) :
  provides ms (resolve_method im) = provides ms im.
Proof.
  unfold provides. induction ms as [|m ms IH]; cbn [existsb]; [reflexivity|].
  rewrite IH, resolve_method_idempotent. reflexivity.
Qed.

(** X6: interface satisfaction does not depend on how the types are spelt:
    a method set written with database/sql's own names ([sql.Result],
    [*sql.Rows], ...) satisfies an interface of the package exactly when the
    same method set written with the package's aliases does. *)
Theorem implements_up_to_aliases (ms iface : list method) :
  implements (map resolve_method ms) iface = implements ms iface /\
  implements ms (map resolve_method iface) = implements ms iface.
Proof.
  unfold implements. split.
  - induction iface as [|im iface IH]; cbn [forallb]; [reflexivity|].
    now rewrite IH, provides_resolved_l.
  - induction iface as [|im iface IH]; cbn [map forallb]; [reflexivity|].
    now rewrite IH, provides_resolved_r.
Qed.

(** ** Conn and the other interfaces *)

(** X7: [Conn] asks for the six operations it shares with [DB], plus
    [Close() error] and [StdConn() *sql.Conn]: any method set that
    satisfies [DB] and also provides these two satisfies [Conn]. *)
Theorem DB_with_Close_and_StdConn_is_Conn (ms : list method) :
  implements ms DB = true ->
  provides ms m_Close = true ->
  provides ms m_StdConn = true ->
  implements ms Conn = true.
Proof.
  unfold implements, DB, Conn. cbn [forallb].
  fold m_Close m_StdConn. intros HDB HClose HStd.
  rewrite HClose, HStd.
  repeat (apply andb_true_iff in HDB; destruct HDB as [-> HDB]).
  reflexivity.
Qed.

Lemma DB_with_Close_and_StdConn_is_Conn_witness :
  implements (method_set std_methods "db" ++ [m_StdConn]) Conn = true.
Proof.
  apply (DB_with_Close_and_StdConn_is_Conn
           (method_set std_methods "db" ++ [m_StdConn])); reflexivity.
Defined.

(** X8: the three wrappers are not interchangeable.  As long as the
    embedded native handles have no method named StdDB, StdStmt or StdTx,
    [db] satisfies neither [Stmt] nor [Tx], [stmt] neither [DB] nor [Tx],
    and [tx] neither [DB] nor [Stmt]: each accessor is declared on one
    wrapper only. *)
Theorem wrappers_satisfy_no_other_interface (native : ty -> list method) :
  (forall t m, In t ["db"; "stmt"; "tx"] -> In m (promoted native t) ->
               ~ In (mname m) ["StdDB"; "StdStmt"; "StdTx"]) ->
  implements (method_set native "db") Stmt = false /\
  implements (method_set native "db") Tx = false /\
  implements (method_set native "stmt") DB = false /\
  implements (method_set native "stmt") Tx = false /\
  implements (method_set native "tx") DB = false /\
  implements (method_set native "tx") Stmt = false.
Proof.
  intros Hnative.
  assert (forall t n, In t ["db"; "stmt"; "tx"] ->
                      In n ["StdDB"; "StdStmt"; "StdTx"] ->
                      has_name n (own_methods t) = false ->
                      has_name n (method_set native t) = false) as Hlack.
  { intros t n Ht Hn Hown. apply method_set_lacks; [exact Hown|].
    intros m Hm E. apply (Hnative t m Ht Hm). now rewrite E. }
  assert (forall t iface im,
            In im iface -> In t ["db"; "stmt"; "tx"] ->
            In (mname im) ["StdDB"; "StdStmt"; "StdTx"] ->
            has_name (mname im) (own_methods t) = false ->
            implements (method_set native t) iface = false) as Hno.
  { intros t iface im Him Ht Hn Hown.
    apply (implements_needs_name _ iface im Him).
    now apply Hlack. }
  repeat split.
  - apply (Hno "db" Stmt
             (Method "StdStmt" (Sig [] None [TPtr (TImported pkg_sql "Stmt")])));
      simpl; first [reflexivity | in_list].
  - apply (Hno "db" Tx
             (Method "StdTx" (Sig [] None [TPtr (TImported pkg_sql "Tx")])));
      simpl; first [reflexivity | in_list].
  - apply (Hno "stmt" DB
             (Method "StdDB" (Sig [] None [TPtr (TImported pkg_sql "DB")])));
      simpl; first [reflexivity | in_list].
  - apply (Hno "stmt" Tx
             (Method "StdTx" (Sig [] None [TPtr (TImported pkg_sql "Tx")])));
      simpl; first [reflexivity | in_list].
  - apply (Hno "tx" DB
             (Method "StdDB" (Sig [] None [TPtr (TImported pkg_sql "DB")])));
      simpl; first [reflexivity | in_list].
  - apply (Hno "tx" Stmt
             (Method "StdStmt" (Sig [] None [TPtr (TImported pkg_sql "Stmt")])));
      simpl; first [reflexivity | in_list].
Qed.

Lemma wrappers_satisfy_no_other_interface_witness :
  implements (method_set std_methods "db") Stmt = false /\
  implements (method_set std_methods "db") Tx = false /\
  implements (method_set std_methods "stmt") DB = false /\
  implements (method_set std_methods "stmt") Tx = false /\
  implements (method_set std_methods "tx") DB = false /\
  implements (method_set std_methods "tx") Stmt = false.
Proof.
  apply (wrappers_satisfy_no_other_interface std_methods).
  intros t m Ht Hm Hn. simpl in Ht.
  repeat (destruct Ht as [<-|Ht];
          [ vm_compute in Hm;
            repeat (destruct Hm as [<-|Hm];
                    [ simpl in Hn;
                      repeat (destruct Hn as [Hn|Hn]; [discriminate Hn|]);
                      exact Hn |]);
            exact Hm |]).
  exact Ht.
Defined.

End StaticExtras.


(* ================================================================== *)
(** * Further facts about the wrapper structs *)
(* ================================================================== *)

Module WrapperExtras.
Import Wrappers.

Section Handles.

Context {N : Native}.

(** X9: a wrapper is nothing but the handle it embeds: re-wrapping the
    handle that [StdDB], [StdStmt] or [StdTx] returns gives the wrapper
    back, and two wrappers holding the same handle are equal, hence take
    part in every operation alike. *)
Theorem wrapper_is_its_handle :
  (forall d : db, mk_db (db_StdDB d) = d) /\
  (forall s : stmt, mk_stmt (stmt_StdStmt s) = s) /\
  (forall t : tx, mk_tx (tx_StdTx t) = t) /\
  (forall d1 d2 : db, db_StdDB d1 = db_StdDB d2 -> d1 = d2) /\
  (forall s1 s2 : stmt, stmt_StdStmt s1 = stmt_StdStmt s2 -> s1 = s2) /\
  (forall t1 t2 : tx, tx_StdTx t1 = tx_StdTx t2 -> t1 = t2).
Proof.
  repeat split.
  - intros [h]. reflexivity.
  - intros [h]. reflexivity.
  - intros [h]. reflexivity.
  - intros [h1] [h2]. simpl. now intros ->.
  - intros [h1] [h2]. simpl. now intros ->.
  - intros [h1] [h2]. simpl. now intros ->.
Qed.

End Handles.

End WrapperExtras.
